(** * cosmos-exporter: the validators and delegator handlers

    A shallow embedding of [ValidatorsHandler] (validators.go) and
    [DelegatorHandler] (delegator.go) of package [exporter].

    The handlers talk to a gRPC query service and fill Prometheus gauges.
    Both effects are made explicit: the query service is a record of
    functions ([Upstream]), and every gauge update, log call and issued
    query is appended to a trace.  Functions of the cosmos-sdk and of the Go
    standard library whose code is not part of the repository are collected
    in the record [Lib]. *)

From Stdlib Require Import ZArith List Bool String Ascii Lia Permutation Arith.
From Stdlib Require Import Strings.Byte DecimalString DecimalPos DecimalZ Sorted.
Import ListNotations.

Local Open Scope string_scope.
Local Open Scope list_scope.
Local Open Scope Z_scope.

(** ** Data model (cosmos-sdk types, reduced to the fields the handlers read) *)

(** [stakingtypes.BondStatus]; the protobuf enum values are 0..3. *)
Inductive BondStatus : Type :=
| Unspecified
| Unbonded
| Unbonding
| Bonded.

Definition BondStatus_code (s : BondStatus) : Z :=
  match s with
  | Unspecified => 0
  | Unbonded => 1
  | Unbonding => 2
  | Bonded => 3
  end.

Definition BondStatus_eqb (a b : BondStatus) : bool :=
  BondStatus_code a =? BondStatus_code b.

(** [codectypes.Any]: the packed consensus public key. *)
Record Any : Type := mkAny {
  TypeUrl : string;
  Value : list byte
}.

(** [stakingtypes.Validator].  [sdk.Int] and [sdk.Dec] wrap a [big.Int]; a
    [Dec] keeps its value multiplied by 10^18, and [Dec.BigInt()] returns
    that integer.  Both are unbounded integers here. *)
Record Validator : Type := mkValidator {
  OperatorAddress : string;
  Moniker : string;              (* Description.Moniker *)
  Status : BondStatus;
  Jailed : bool;
  CommissionRate : Z;            (* Commission.CommissionRates.Rate, a Dec *)
  Tokens : Z;                    (* an Int *)
  DelegatorShares : Z;           (* a Dec *)
  MinSelfDelegation : Z;         (* an Int *)
  ConsensusPubkey : option Any
}.

(** [slashingtypes.ValidatorSigningInfo]. *)
Record ValidatorSigningInfo : Type := mkSigningInfo {
  Address : string;
  MissedBlocksCounter : Z        (* int64 *)
}.

(** [Validator.IsBonded]. *)
Definition IsBonded (v : Validator) : bool :=
  BondStatus_eqb (Status v) Bonded.

(** [Dec.BigInt]. *)
Definition BigInt (d : Z) : Z := d.

(** [big.Int.Cmp]: -1, 0 or +1. *)
Definition Cmp (x y : Z) : Z :=
  match Z.compare x y with
  | Lt => -1
  | Eq => 0
  | Gt => 1
  end.

(** ** The ordering of validators (validators.go, lines 170-178) *)

(** The [less] closure handed to [sort.Slice], on the two elements it
    indexes. *)
Definition validatorsLess (vi vj : Validator) : bool :=
  if negb (IsBonded vi) && IsBonded vj then false
  else if IsBonded vi && negb (IsBonded vj) then true
  else Cmp (BigInt (DelegatorShares vi)) (BigInt (DelegatorShares vj)) >? 0.

(** [sort.IsSorted] for a [less] function: no element is less than its
    predecessor. *)
Fixpoint IsSorted {A : Type} (less : A -> A -> bool) (l : list A) : bool :=
  match l with
  | [] => true
  | x :: tl =>
      match tl with
      | [] => true
      | y :: _ => negb (less y x) && IsSorted less tl
      end
  end.

(** What the documentation of [sort.Slice] promises about a call with
    [validatorsLess]: the slice is rearranged in place (a permutation) and
    is sorted afterwards.  The documentation adds that the sort is not
    guaranteed to be stable; [sort.SliceStable] is the stable variant. *)
Record SliceContract (sort_Slice : list Validator -> list Validator) : Prop := {
  Slice_permutes : forall vs, Permutation vs (sort_Slice vs);
  Slice_sorts : forall vs, IsSorted validatorsLess (sort_Slice vs) = true
}.

(** *** Two sorting procedures that meet the contract *)

(** [insertionSort_func] of package sort: each element is moved left while
    it is less than its predecessor.  On a list, element [x] is placed after
    the already sorted prefix and swapped leftwards past every element it is
    less than. *)
Fixpoint sinkLeft {A : Type} (less : A -> A -> bool) (x : A) (rev_prefix : list A)
  : list A :=
  match rev_prefix with
  | [] => [x]
  | p :: ps => if less x p then p :: sinkLeft less x ps else x :: rev_prefix
  end.

Definition insertionSort_func {A : Type} (less : A -> A -> bool) (l : list A)
  : list A :=
  rev (fold_left (fun rev_sorted x => sinkLeft less x rev_sorted) l []).

(** One pass with a fixed gap, as [quickSort_func] ran it (gap 6) over a
    short slice ahead of the insertion sort in Go releases before 1.19:
    [for i := a + 6; i < b; i++ { if less(i, i-6) { swap(i, i-6) } }].
    [window] holds the current values of the [gap] positions before [i];
    the head of the window is position [i - gap], which no later iteration
    touches. *)
Fixpoint gapPass {A : Type} (less : A -> A -> bool) (window rest : list A)
  : list A :=
  match rest with
  | [] => window
  | y :: rest' =>
      match window with
      | [] => y :: gapPass less [] rest'
      | w :: ws =>
          if less y w then y :: gapPass less (ws ++ [w]) rest'
          else w :: gapPass less (ws ++ [y]) rest'
      end
  end.

Definition shellThenInsertion {A : Type} (less : A -> A -> bool) (l : list A)
  : list A :=
  insertionSort_func less (gapPass less (firstn 6 l) (skipn 6 l)).

(** ** Functions used by the handlers whose code lives outside the repository *)

(** [encoding/hex.EncodeToString] followed by [strings.ToUpper]. *)
Module Hex.

Definition digit (n : N) : ascii :=
  if (n <? 10)%N then ascii_of_N (48 + n) else ascii_of_N (87 + n).

Fixpoint EncodeToString (src : list byte) : string :=
  match src with
  | [] => EmptyString
  | b :: tl =>
      String (digit (Byte.to_N b / 16)) (String (digit (Byte.to_N b mod 16))
                                                (EncodeToString tl))
  end.

(** On ASCII text [strings.ToUpper] maps 'a'..'z' to 'A'..'Z'. *)
Definition upperChar (c : ascii) : ascii :=
  let n := N_of_ascii c in
  if ((97 <=? n) && (n <=? 122))%N then ascii_of_N (n - 32) else c.

Fixpoint ToUpper (s : string) : string :=
  match s with
  | EmptyString => EmptyString
  | String c tl => String (upperChar c) (ToUpper tl)
  end.

End Hex.

(** The remaining library functions are parameters of the development.
    A call that returns [(value, err)] whose value the handler reads only
    when [err == nil] is an [option]; [GetConsAddr] is the exception, the
    handler goes on with the returned address after logging the error.
    [GetConsAddr] stands for the call as the handler makes it, right after
    [UnpackInterfaces] on the same validator. *)
Record Lib : Type := mkLib {
  float64 : Type;
  ParseFloat : string -> option float64;          (* strconv.ParseFloat(s, 64) *)
  quo : float64 -> float64 -> float64;            (* x / y on float64 *)
  Dec_String : Z -> string;                       (* sdk.Dec.String *)
  Int_String : Z -> string;                       (* sdk.Int.String *)
  UnpackInterfaces : Validator -> bool;           (* true: err != nil *)
  GetConsAddr : Validator -> list byte * bool;    (* address, and err != nil *)
  ConsAddress_String : list byte -> string;       (* sdk.ConsAddress.String *)
  ValAddressFromBech32 : string -> option (list byte);
  ValAddress_String : list byte -> string;
  sort_Slice : (Validator -> Validator -> bool) -> list Validator -> list Validator
}.

(** [querytypes.PageRequest]; a field the handler leaves out is zero. *)
Record PageRequest : Type := mkPage {
  Offset : Z;                                     (* uint64 *)
  Limit : Z                                       (* uint64 *)
}.

(** The outcome of one gRPC call: [err != nil], or the response. *)
Inductive Reply (A : Type) : Type :=
| Err
| Ok (response : A).
Arguments Err {A}.
Arguments Ok {A} response.

Record DelegationResponse : Type := mkDelegation {
  DelegatorAddress : string;
  Shares : Z
}.

(** The query service behind [s.GrpcConn].  [Validators] answers with the
    validators of one page (a nil response and an empty page are the same
    to the handler); [Params] answers with [Params.MaxValidators]. *)
Record Upstream : Type := mkUpstream {
  Validators : PageRequest -> Reply (list Validator);
  SigningInfos : PageRequest -> Reply (list ValidatorSigningInfo);
  Params : Reply Z;                               (* uint32 *)
  SigningInfo : string -> Reply ValidatorSigningInfo;
  ValidatorDelegations : string -> PageRequest -> Reply (list DelegationResponse)
}.

Inductive Query : Type :=
| QValidators (p : PageRequest)
| QSigningInfos (p : PageRequest)
| QParams
| QSigningInfo (ConsAddress : string)
| QValidatorDelegations (ValidatorAddr : string) (p : PageRequest).

Inductive Level : Type := TraceLevel | DebugLevel | InfoLevel | ErrorLevel.

(** A log call: level, message, and the address field when one is attached
    (timing fields are left out). *)
Record LogEntry : Type := mkLog {
  level : Level;
  msg : string;
  about : option string
}.

Section Handlers.

Variable L : Lib.

(** The fields of [ServiceConfig] the handlers read. *)
Record ServiceConfig : Type := mkConfig {
  ConfigLimit : Z;                              (* config.Limit, uint64 *)
  Denom : string;
  DenomCoefficient : float64 L
}.

(** One [GaugeVec.With(labels).Set(value)] call.  A gauge that is set to
    [float64(n)] for an integer [n] carries [n]; the jailed and active
    gauges carry the 0 or 1 they are set to. *)
Inductive Sample : Type :=
| Commission (address moniker : string) (rate : float64 L)
| StatusCode (address moniker : string) (code : Z)
| JailedFlag (address moniker : string) (jailed : Z)
| TokensAmount (address moniker denom : string) (value : float64 L)
| DelegatorSharesAmount (address moniker denom : string) (value : float64 L)
| MinSelfDelegationAmount (address moniker denom : string) (value : float64 L)
| MissedBlocks (address moniker : string) (missed : Z)
| Rank (address moniker : string) (rank : Z)
| IsActive (address pubkey_hash moniker : string) (active : Z)
| DelegatorTotal (validator_address : string) (total : Z).

Inductive Event : Type :=
| EvQuery (q : Query)
| EvLog (l : LogEntry)
| EvSet (s : Sample).

Definition logAt (lvl : Level) (m : string) (a : option string) : Event :=
  EvLog (mkLog lvl m a).

Variable config : ServiceConfig.
Variable up : Upstream.

(** *** First goroutine: the validator pages, then the sort *)

(** How the goroutine left the loop: through [break] or through the
    [return] of the error branch. *)
Inductive LoopExit : Type := ByBreak | ByReturn.

(** The [for] loop of lines 141-163.  [fuel] bounds the number of page
    requests; [None] means the bound was reached. *)
Fixpoint validatorsLoop (fuel : nat) (offset : Z) (validators : list Validator)
         (tr : list Event) : option (LoopExit * list Validator * list Event) :=
  match fuel with
  | O => None
  | S fuel' =>
      let p := mkPage offset (ConfigLimit config) in
      let tr := tr ++ [EvQuery (QValidators p)] in
      match Validators up p with
      | Err =>
          Some (ByReturn, validators,
                tr ++ [logAt ErrorLevel "Could not get validators" None])
      | Ok validatorsOnPage =>
          match validatorsOnPage with
          | [] => Some (ByBreak, validators, tr)
          | _ :: _ =>
              let validators := validators ++ validatorsOnPage in
              validatorsLoop fuel' (Z.of_nat (List.length validators)) validators tr
          end
      end
  end.

(** The whole goroutine (lines 133-179): what it leaves in [validators]
    and what it did. *)
Definition queryValidators (fuel : nat) : option (list Validator * list Event) :=
  match validatorsLoop fuel 0 []
                       [logAt DebugLevel "Started querying validators" None] with
  | None => None
  | Some (ByReturn, validators, tr) => Some (validators, tr)
  | Some (ByBreak, validators, tr) =>
      Some (sort_Slice L validatorsLess validators,
            tr ++ [logAt DebugLevel "Finished querying validators" None])
  end.

(** *** Second goroutine: the signing infos (lines 182-207) *)
Definition querySigningInfos : list ValidatorSigningInfo * list Event :=
  let p := mkPage 0 (ConfigLimit config) in
  let tr := [logAt DebugLevel "Started querying validators signing infos" None;
             EvQuery (QSigningInfos p)] in
  match SigningInfos up p with
  | Err => ([], tr ++ [logAt ErrorLevel "Could not get validators signing infos" None])
  | Ok info =>
      (info, tr ++ [logAt DebugLevel "Finished querying validator signing infos" None])
  end.

(** *** Third goroutine: the staking parameters (lines 210-231) *)
Definition queryParams : Z * list Event :=
  let tr := [logAt DebugLevel "Started querying staking params" None;
             EvQuery QParams] in
  match Params up with
  | Err => (0, tr ++ [logAt ErrorLevel "Could not get staking params" None])
  | Ok maxValidators =>
      (maxValidators, tr ++ [logAt DebugLevel "Finished querying staking params" None])
  end.

(** *** The pass over the validators (lines 240-394) *)

(** The state the loop carries: the counter [activeValidators] and what
    the main goroutine did so far. *)
Record LoopState : Type := mkState {
  activeValidators : Z;                         (* int *)
  trace : list Event
}.

Definition emit (e : Event) (st : LoopState) : LoopState :=
  mkState (activeValidators st) (trace st ++ [e]).

(** The shape shared by the three amount gauges: parse the printed
    amount, log on error, otherwise set the gauge to the value divided by
    [config.DenomCoefficient]. *)
Definition setScaled (printed : string) (failure : string) (address : string)
           (gauge : float64 L -> Sample) (st : LoopState) : LoopState :=
  match ParseFloat L printed with
  | None => emit (logAt ErrorLevel failure (Some address)) st
  | Some value => emit (EvSet (gauge (quo L value (DenomCoefficient config)))) st
  end.

(** Lines 243-314: commission, status, jailed and the three amounts. *)
Definition setPlainGauges (validator : Validator) (st : LoopState) : LoopState :=
  let address := OperatorAddress validator in
  let moniker := Moniker validator in
  let st :=
    match ParseFloat L (Dec_String L (CommissionRate validator)) with
    | None => emit (logAt ErrorLevel "Could not get commission" (Some address)) st
    | Some rate => emit (EvSet (Commission address moniker rate)) st
    end in
  let st := emit (EvSet (StatusCode address moniker
                                    (BondStatus_code (Status validator)))) st in
  let jailed := if Jailed validator then 1 else 0 in
  let st := emit (EvSet (JailedFlag address moniker jailed)) st in
  let st := setScaled (Int_String L (Tokens validator))
                      "Could not parse delegator tokens" address
                      (TokensAmount address moniker (Denom config)) st in
  let st := setScaled (Dec_String L (DelegatorShares validator))
                      "Could not parse delegator shares" address
                      (DelegatorSharesAmount address moniker (Denom config)) st in
  setScaled (Int_String L (MinSelfDelegation validator))
            "Could not parse validator min self delegation" address
            (MinSelfDelegationAmount address moniker (Denom config)) st.

(** Lines 316-330: unpack the public key and derive the consensus
    address.  Either failure is logged and the loop body goes on; the
    address is whatever [GetConsAddr] returned. *)
Definition derivePubKey (validator : Validator) (st : LoopState)
  : list byte * LoopState :=
  let address := OperatorAddress validator in
  let st :=
    if UnpackInterfaces L validator
    then emit (logAt ErrorLevel "Could not get unpack validator inferfaces"
                     (Some address)) st
    else st in
  let '(pubKey, failed) := GetConsAddr L validator in
  let st :=
    if failed
    then emit (logAt ErrorLevel "Could not get validator pubkey" (Some address)) st
    else st in
  (pubKey, st).

(** The zero value of [ValidatorSigningInfo]. *)
Definition zeroSigningInfo : ValidatorSigningInfo := mkSigningInfo "" 0.

(** Lines 332-341: the scan of the bulk signing infos; the first record
    whose address equals the key wins. *)
Fixpoint scanSigningInfos (key : string) (signingInfos : list ValidatorSigningInfo)
  : bool * ValidatorSigningInfo :=
  match signingInfos with
  | [] => (false, zeroSigningInfo)
  | signingInfoIterated :: rest =>
      if String.eqb key (Address signingInfoIterated)
      then (true, signingInfoIterated)
      else scanSigningInfos key rest
  end.

(** Lines 343-357: the single lookup when the scan found nothing.  [inl]
    is the [continue] of the error branch: the rest of the loop body is
    not run for this validator. *)
Definition fallbackLookup (validator : Validator) (key : string)
           (found : bool) (signingInfo : ValidatorSigningInfo) (st : LoopState)
  : LoopState + (bool * ValidatorSigningInfo * LoopState) :=
  if negb found then
    let st := emit (EvQuery (QSigningInfo key)) st in
    match SigningInfo up key with
    | Err =>
        inl (emit (logAt DebugLevel "Could not get signing info for validator"
                         (Some (OperatorAddress validator))) st)
    | Ok ValSigningInfo => inr (true, ValSigningInfo, st)
    end
  else inr (found, signingInfo, st).

(** Lines 359-368. *)
Definition setMissedBlocks (validator : Validator) (found : bool)
           (signingInfo : ValidatorSigningInfo) (st : LoopState) : LoopState :=
  if found && BondStatus_eqb (Status validator) Bonded
  then emit (EvSet (MissedBlocks (OperatorAddress validator) (Moniker validator)
                                 (MissedBlocksCounter signingInfo))) st
  else emit (logAt TraceLevel
                   "Validator is not active, not returning missed blocks amount."
                   (Some (OperatorAddress validator))) st.

(** Lines 370-373. *)
Definition setRank (index : nat) (validator : Validator) (st : LoopState)
  : LoopState :=
  emit (EvSet (Rank (OperatorAddress validator) (Moniker validator)
                    (Z.of_nat index + 1))) st.

(** Lines 375-393.  [active] is the float64 1 or 0 of the source, and
    [int(validatorSetLength)] is [validatorSetLength] itself on a 64-bit
    [int]. *)
Definition setActive (validatorSetLength : Z) (validator : Validator)
           (pubKey : list byte) (st : LoopState) : LoopState :=
  if negb (validatorSetLength =? 0) then
    let active := 1 in
    let active := if Jailed validator then 0 else active in
    let active := if activeValidators st =? validatorSetLength then 0 else active in
    let st := mkState (activeValidators st + active) (trace st) in
    emit (EvSet (IsActive (OperatorAddress validator)
                          (Hex.ToUpper (Hex.EncodeToString pubKey))
                          (Moniker validator) active)) st
  else st.

(** The body of the [range] loop for one validator. *)
Definition validatorBody (signingInfos : list ValidatorSigningInfo)
           (validatorSetLength : Z) (index : nat) (validator : Validator)
           (st : LoopState) : LoopState :=
  let st := setPlainGauges validator st in
  let '(pubKey, st) := derivePubKey validator st in
  let key := ConsAddress_String L pubKey in
  let '(found, signingInfo) := scanSigningInfos key signingInfos in
  match fallbackLookup validator key found signingInfo st with
  | inl st => st
  | inr (found, signingInfo, st) =>
      let st := setMissedBlocks validator found signingInfo st in
      let st := setRank index validator st in
      setActive validatorSetLength validator pubKey st
  end.

(** [for index, validator := range validators], from position [index]. *)
Fixpoint rangeValidators (signingInfos : list ValidatorSigningInfo)
         (validatorSetLength : Z) (index : nat) (validators : list Validator)
         (st : LoopState) : LoopState :=
  match validators with
  | [] => st
  | validator :: rest =>
      rangeValidators signingInfos validatorSetLength (S index) rest
        (validatorBody signingInfos validatorSetLength index validator st)
  end.

(** The gauge updates of a trace, in the order they were made. *)
Fixpoint samplesOf (tr : list Event) : list Sample :=
  match tr with
  | [] => []
  | EvSet s :: tl => s :: samplesOf tl
  | _ :: tl => samplesOf tl
  end.

Fixpoint queriesOf (tr : list Event) : list Query :=
  match tr with
  | [] => []
  | EvQuery q :: tl => q :: queriesOf tl
  | _ :: tl => queriesOf tl
  end.

Fixpoint logsOf (tr : list Event) : list LogEntry :=
  match tr with
  | [] => []
  | EvLog l :: tl => l :: logsOf tl
  | _ :: tl => logsOf tl
  end.

(** *** The handler *)

(** What a request did.  The three goroutines write three different
    variables and are joined by [wg.Wait()] before anything reads them, so
    each has a trace of its own; [derivation] is the main goroutine after
    the barrier.  [served] lists the gauge updates behind the response
    that [h.ServeHTTP] writes, in the order they were made (in the
    registry a later update with the same labels replaces an earlier
    one). *)
Record ValidatorsRun : Type := mkRun {
  fetchedValidators : list Validator;
  fetchedSigningInfos : list ValidatorSigningInfo;
  fetchedSetLength : Z;
  validatorsTrace : list Event;
  signingInfosTrace : list Event;
  paramsTrace : list Event;
  derivation : list Event;
  countedActive : Z;
  served : list Sample
}.

Definition ValidatorsHandler (fuel : nat) : option ValidatorsRun :=
  match queryValidators fuel with
  | None => None
  | Some (validators, vtr) =>
      let '(signingInfos, str) := querySigningInfos in
      let '(validatorSetLength, ptr) := queryParams in
      let st := mkState 0 [logAt InfoLevel "Validators info" None] in
      let st := rangeValidators signingInfos validatorSetLength 0 validators st in
      let st := emit (logAt InfoLevel "Active validators" None) st in
      let body := samplesOf (trace st) in
      let st := emit (logAt InfoLevel "Request processed" None) st in
      Some (mkRun validators signingInfos validatorSetLength vtr str ptr
                  (trace st) (activeValidators st) body)
  end.

(** *** The delegator handler (delegator.go) *)

(** [registered] lists the gauges added to the request's registry and
    [response] is what was written to the [http.ResponseWriter]: [None]
    when the handler returned without calling [h.ServeHTTP]. *)
Record DelegatorRun : Type := mkDelegatorRun {
  delegatorTrace : list Event;
  registered : list string;
  response : option (list Sample)
}.

Definition DelegatorHandler (validatorAddress : string) : DelegatorRun :=
  match ValAddressFromBech32 L validatorAddress with
  | None =>
      mkDelegatorRun
        [logAt ErrorLevel "Could not get validator address" (Some validatorAddress)]
        [] None
  | Some valAddress =>
      let p := mkPage 0 (ConfigLimit config) in
      let tr := [logAt DebugLevel "Started querying delegator" (Some validatorAddress);
                 EvQuery (QValidatorDelegations (ValAddress_String L valAddress) p)] in
      let tr :=
        match ValidatorDelegations up (ValAddress_String L valAddress) p with
        | Err => tr ++ [logAt ErrorLevel "Could not get delegator"
                              (Some validatorAddress)]
        | Ok DelegationResponses =>
            tr ++ [logAt DebugLevel "Finished querying delegators"
                         (Some validatorAddress);
                   EvSet (DelegatorTotal validatorAddress
                            (Z.of_nat (List.length DelegationResponses)))]
        end in
      mkDelegatorRun
        (tr ++ [logAt InfoLevel "Request processed" (Some validatorAddress)])
        ["cosmos_validator_delegator_total"]
        (Some (samplesOf tr))
  end.

End Handlers.

Arguments Commission {L} address moniker rate.
Arguments StatusCode {L} address moniker code.
Arguments JailedFlag {L} address moniker jailed.
Arguments TokensAmount {L} address moniker denom value.
Arguments DelegatorSharesAmount {L} address moniker denom value.
Arguments MinSelfDelegationAmount {L} address moniker denom value.
Arguments MissedBlocks {L} address moniker missed.
Arguments Rank {L} address moniker rank.
Arguments IsActive {L} address pubkey_hash moniker active.
Arguments DelegatorTotal {L} validator_address total.
Arguments EvQuery {L} q.
Arguments EvLog {L} l.
Arguments EvSet {L} s.
Arguments logAt {L} lvl m a.
Arguments mkState {L} activeValidators trace.
Arguments activeValidators {L} l.
Arguments trace {L} l.
Arguments emit {L} e st.
Arguments samplesOf {L} tr.
Arguments queriesOf {L} tr.
Arguments logsOf {L} tr.
Arguments fetchedValidators {L} v.
Arguments fetchedSigningInfos {L} v.
Arguments fetchedSetLength {L} v.
Arguments validatorsTrace {L} v.
Arguments signingInfosTrace {L} v.
Arguments paramsTrace {L} v.
Arguments derivation {L} v.
Arguments countedActive {L} v.
Arguments served {L} v.
Arguments delegatorTrace {L} d.
Arguments registered {L} d.
Arguments response {L} d.

(** ** Notions the properties are stated with *)

(** Two validators the comparator cannot tell apart: same bonded state,
    same delegator shares. *)
Definition tied (a b : Validator) : Prop :=
  IsBonded a = IsBonded b /\ DelegatorShares a = DelegatorShares b.

(** Position of the first validator with a given operator address. *)
Fixpoint positionOf (address : string) (vs : list Validator) : option nat :=
  match vs with
  | [] => None
  | v :: tl =>
      if String.eqb address (OperatorAddress v) then Some O
      else option_map S (positionOf address tl)
  end.

Section Views.

Variable L : Lib.

Definition isActiveSample (s : Sample L) : bool :=
  match s with IsActive _ _ _ _ => true | _ => false end.

(** The values of the active gauge, in the order they were set. *)
Fixpoint activeFlags (ss : list (Sample L)) : list Z :=
  match ss with
  | [] => []
  | IsActive _ _ _ active :: tl => active :: activeFlags tl
  | _ :: tl => activeFlags tl
  end.

(** The values of the rank gauge, in the order they were set. *)
Fixpoint ranksOf (ss : list (Sample L)) : list Z :=
  match ss with
  | [] => []
  | Rank _ _ rank :: tl => rank :: ranksOf tl
  | _ :: tl => ranksOf tl
  end.

(** The rank gauge as a table: operator address and rank. *)
Fixpoint rankedOf (ss : list (Sample L)) : list (string * Z) :=
  match ss with
  | [] => []
  | Rank address _ rank :: tl => (address, rank) :: rankedOf tl
  | _ :: tl => rankedOf tl
  end.

(** The active gauge as a table: operator address, pubkey label, value. *)
Fixpoint activeOf (ss : list (Sample L)) : list (string * string * Z) :=
  match ss with
  | [] => []
  | IsActive address pubkey_hash _ active :: tl =>
      (address, pubkey_hash, active) :: activeOf tl
  | _ :: tl => activeOf tl
  end.

(** The missed-blocks gauge as a table: operator address and counter. *)
Fixpoint missedOf (ss : list (Sample L)) : list (string * Z) :=
  match ss with
  | [] => []
  | MissedBlocks address _ missed :: tl => (address, missed) :: missedOf tl
  | _ :: tl => missedOf tl
  end.

(** The consensus address the loop body works with for a validator, and
    the key of its signing-info join. *)
Definition pubKeyOf (v : Validator) : list byte := fst (GetConsAddr L v).

Definition joinKey (v : Validator) : string := ConsAddress_String L (pubKeyOf v).

(** The signing-info match of a validator in the words of the
    specification: the record of the bulk set when it has one for the
    key, otherwise the record of the single lookup when that succeeds. *)
Definition signingInfoMatch (up : Upstream) (signingInfos : list ValidatorSigningInfo)
           (key : string) : option ValidatorSigningInfo :=
  match find (fun si => String.eqb key (Address si)) signingInfos with
  | Some si => Some si
  | None =>
      match SigningInfo up key with
      | Ok si => Some si
      | Err => None
      end
  end.

(** The validators for which the loop body gets past the lookup. *)
Definition reached (up : Upstream) (signingInfos : list ValidatorSigningInfo)
           (vs : list Validator) : list Validator :=
  filter (fun v => match signingInfoMatch up signingInfos (joinKey v) with
                   | Some _ => true
                   | None => false
                   end) vs.

(** The active sample the handler sets for a validator. *)
Definition activeSampleFor (v : Validator) (active : Z) : Sample L :=
  IsActive (OperatorAddress v) (Hex.ToUpper (Hex.EncodeToString (pubKeyOf v)))
           (Moniker v) active.

End Views.

Arguments isActiveSample {L} s.
Arguments activeFlags {L} ss.
Arguments ranksOf {L} ss.
Arguments rankedOf {L} ss.
Arguments activeOf {L} ss.
Arguments missedOf {L} ss.

(** The invariant of the insertion sort, whose sorted prefix is kept
    reversed: no element is less than the one that follows it in the
    reversed list. *)
Fixpoint sortedBackwards {A : Type} (less : A -> A -> bool) (l : list A) : bool :=
  match l with
  | [] => true
  | x :: tl =>
      match tl with
      | [] => true
      | y :: _ => negb (less x y) && sortedBackwards less tl
      end
  end.

(** [1; 2; ...; n] from [start]. *)
Fixpoint countingFrom (start : Z) (n : nat) : list Z :=
  match n with
  | O => []
  | S n' => start :: countingFrom (start + 1) n'
  end.

(** *** The events one loop iteration adds *)

Section LoopViews.

Variable L : Lib.
Variable config : ServiceConfig L.

(** A state with further events at the end of its trace. *)
Definition extend (st : LoopState L) (evs : list (Event L)) : LoopState L :=
  mkState (activeValidators st) (trace st ++ evs).

(** The gauges of lines 243-314. *)
Definition isPlainSample (s : Sample L) : bool :=
  match s with
  | Commission _ _ _ | StatusCode _ _ _ | JailedFlag _ _ _
  | TokensAmount _ _ _ _ | DelegatorSharesAmount _ _ _ _
  | MinSelfDelegationAmount _ _ _ _ => true
  | _ => false
  end.

(** Events that issue no query and set none of the missed-blocks, rank
    and active gauges. *)
Definition quiet (evs : list (Event L)) : Prop :=
  queriesOf evs = [] /\ forallb isPlainSample (samplesOf evs) = true.

(** What lines 243-314 and lines 316-330 add for a validator. *)
Definition plainEvents (v : Validator) : list (Event L) :=
  trace (setPlainGauges L config v (mkState 0 [])).

Definition deriveEvents (v : Validator) : list (Event L) :=
  trace (snd (derivePubKey L v (mkState 0 []))).

(** The single lookup is issued exactly when the bulk set has no record
    for the key. *)
Definition lookupEvents (signingInfos : list ValidatorSigningInfo) (v : Validator)
  : list (Event L) :=
  match find (fun si => String.eqb (joinKey L v) (Address si)) signingInfos with
  | Some _ => []
  | None => [EvQuery (QSigningInfo (joinKey L v))]
  end.

(** Lines 359-368 for a validator whose signing info is [si]. *)
Definition missedEvent (v : Validator) (si : ValidatorSigningInfo) : Event L :=
  if BondStatus_eqb (Status v) Bonded
  then EvSet (MissedBlocks (OperatorAddress v) (Moniker v) (MissedBlocksCounter si))
  else logAt TraceLevel "Validator is not active, not returning missed blocks amount."
             (Some (OperatorAddress v)).

Definition rankEvent (index : nat) (v : Validator) : Event L :=
  EvSet (Rank (OperatorAddress v) (Moniker v) (Z.of_nat index + 1)).

(** The active gauge value of lines 377-385 for a validator met when the
    counter stands at [count]. *)
Definition activeValue (validatorSetLength count : Z) (v : Validator) : Z :=
  if Jailed v then 0 else if count =? validatorSetLength then 0 else 1.

Definition countOnes (flags : list Z) : Z :=
  Z.of_nat (List.length (filter (fun f => f =? 1) flags)).

Definition dropActive (ss : list (Sample L)) : list (Sample L) :=
  filter (fun s => negb (isActiveSample s)) ss.

Variable up : Upstream.

(** Everything one iteration appends to the trace, and the counter it
    leaves, for the validator at position [index] met with the counter at
    [count]. *)
Definition stepEvents (signingInfos : list ValidatorSigningInfo)
           (validatorSetLength : Z) (index : nat) (v : Validator) (count : Z)
  : list (Event L) :=
  plainEvents v ++ deriveEvents v ++ lookupEvents signingInfos v ++
  match signingInfoMatch up signingInfos (joinKey L v) with
  | None => [logAt DebugLevel "Could not get signing info for validator"
                   (Some (OperatorAddress v))]
  | Some si =>
      [missedEvent v si; rankEvent index v] ++
      (if validatorSetLength =? 0 then []
       else [EvSet (activeSampleFor L v (activeValue validatorSetLength count v))])
  end.

Definition stepCount (signingInfos : list ValidatorSigningInfo)
           (validatorSetLength : Z) (v : Validator) (count : Z) : Z :=
  match signingInfoMatch up signingInfos (joinKey L v) with
  | None => count
  | Some _ =>
      if validatorSetLength =? 0 then count
      else count + activeValue validatorSetLength count v
  end.

(** The active values handed out along a list of validators. *)
Fixpoint assign (validatorSetLength count : Z) (vs : list Validator) : list Z :=
  match vs with
  | [] => []
  | v :: tl =>
      let active := activeValue validatorSetLength count v in
      active :: assign validatorSetLength (count + active) tl
  end.

(** The ranks set for the validators from position [index] on: one for
    each validator that has a signing-info match. *)
Fixpoint ranksSet (signingInfos : list ValidatorSigningInfo) (index : nat)
         (vs : list Validator) : list Z :=
  match vs with
  | [] => []
  | v :: tl =>
      match signingInfoMatch up signingInfos (joinKey L v) with
      | Some _ => Z.of_nat index + 1 :: ranksSet signingInfos (S index) tl
      | None => ranksSet signingInfos (S index) tl
      end
  end.

End LoopViews.

Arguments extend {L} st evs.
Arguments isPlainSample {L} s.
Arguments quiet {L} evs.
Arguments missedEvent {L} v si.
Arguments rankEvent {L} index v.
Arguments dropActive {L} ss.

(** The page a query service returns for a request when it holds the list
    [all]: at most [Limit] items from position [Offset] on. *)
Definition pageOf {A : Type} (all : list A) (p : PageRequest) : list A :=
  firstn (Z.to_nat (Limit p)) (skipn (Z.to_nat (Offset p)) all).

(** ** A concrete instance for running the handlers *)

Module Example.

(** Amounts are printed and parsed in decimal; the float type is [Z]. *)
Definition print (z : Z) : string := NilZero.string_of_int (Z.to_int z).

Definition parse (s : string) : option Z :=
  option_map Z.of_int (NilZero.int_of_string s).

Definition ed25519 : string := "/cosmos.crypto.ed25519.PubKey".

Definition unpackFails (v : Validator) : bool :=
  match ConsensusPubkey v with
  | Some key => negb (String.eqb (TypeUrl key) ed25519)
  | None => false
  end.

Definition getConsAddr (v : Validator) : list byte * bool :=
  match ConsensusPubkey v with
  | Some key =>
      if String.eqb (TypeUrl key) ed25519 then (Value key, false) else ([], true)
  | None => ([], true)
  end.

Definition consAddressString (a : list byte) : string :=
  match a with
  | [] => ""
  | _ :: _ => ("valcons" ++ Hex.EncodeToString a)%string
  end.

Definition valAddressFromBech32 (s : string) : option (list byte) :=
  if String.prefix "valoper" s then Some (list_byte_of_string s) else None.

Definition lib (srt : (Validator -> Validator -> bool) -> list Validator -> list Validator)
  : Lib :=
  mkLib Z parse Z.div print print unpackFails getConsAddr consAddressString
        valAddressFromBech32 string_of_list_byte srt.

(** Go 1.19 and later sort a slice of at most 12 elements by insertion. *)
Definition go : Lib := lib (@insertionSort_func Validator).

(** Go before 1.19 on a slice of at most 12 elements. *)
Definition go118 : Lib := lib (@shellThenInsertion Validator).

Definition config (L : Lib) (coefficient : float64 L) : ServiceConfig L :=
  mkConfig L 2 "uatom" coefficient.

Definition key (b : byte) : option Any := Some (mkAny ed25519 [b]).

Definition validator (address : string) (status : BondStatus) (jailed : bool)
           (shares : Z) (pubkey : option Any) : Validator :=
  mkValidator address address status jailed 1 shares shares 1 pubkey.

(** The scenario of the specification: two bonded validators and an
    unbonded one with the largest shares. *)
Definition v1000 : Validator := validator "valoper1000" Bonded false 1000 (key x01).
Definition v5000 : Validator := validator "valoper5000" Bonded false 5000 (key x02).
Definition v9999 : Validator := validator "valoper9999" Unbonded false 9999 (key x03).

(** A jailed validator and one whose public key does not unpack. *)
Definition vJailed : Validator := validator "valoperjail" Bonded true 7000 (key x04).
Definition vNoKey : Validator := validator "valopernokey" Bonded false 10 None.

(** Seven bonded validators; the first two are tied. *)
Definition tieA : Validator := validator "valoperA" Bonded false 5 (key x0a).
Definition tieB : Validator := validator "valoperB" Bonded false 5 (key x0b).
Definition seven : list Validator :=
  [tieA; tieB;
   validator "valoperC" Bonded false 4 (key x0c);
   validator "valoperD" Bonded false 3 (key x0d);
   validator "valoperE" Bonded false 2 (key x0e);
   validator "valoperF" Bonded false 1 (key x0f);
   validator "valoperG" Bonded false 9 (key x10)].

(** A query service that holds a list of validators and a list of signing
    infos and serves them with [pageOf]; the validators query fails from
    offset [failFrom] on when that is given, and the single lookup knows
    the records of [lookup]. *)
Definition service (vs : list Validator) (failFrom : option Z)
           (infos : list ValidatorSigningInfo) (params : Reply Z)
           (lookup : list ValidatorSigningInfo) : Upstream :=
  mkUpstream
    (fun p => match failFrom with
              | Some k => if k <=? Offset p then Err else Ok (pageOf vs p)
              | None => Ok (pageOf vs p)
              end)
    (fun p => Ok (pageOf infos p))
    params
    (fun cons => match find (fun si => String.eqb cons (Address si)) lookup with
                 | Some si => Ok si
                 | None => Err
                 end)
    (fun _ _ => Ok []).

Definition infoOf (v : Validator) (missed : Z) : ValidatorSigningInfo :=
  mkSigningInfo (consAddressString (fst (getConsAddr v))) missed.

Definition cfg : ServiceConfig go := config go 1.

(** The scenario behind a service whose bulk signing infos know one of
    the three validators and whose single lookup knows the other two. *)
Definition scenario : Upstream :=
  service [v1000; v5000; v9999] None [infoOf v1000 3] (Ok 1)
          [infoOf v5000 8; infoOf v9999 2].

(** Four validators, one of them jailed, and room for two. *)
Definition withJailed : Upstream :=
  service [v1000; vJailed; v5000; v9999] None
          [infoOf v1000 3; infoOf vJailed 40] (Ok 2)
          [infoOf v5000 8; infoOf v9999 2].

(** The staking parameters cannot be fetched. *)
Definition withoutParams : Upstream :=
  service [v1000; v5000; v9999] None [infoOf v1000 3] Err
          [infoOf v5000 8; infoOf v9999 2].

(** Three bonded validators; nothing is known about the signing of the
    second one. *)
Definition v3000 : Validator := validator "valoper3000" Bonded false 3000 (key x05).

Definition unknownSigner : Upstream :=
  service [v5000; v3000; v1000] None [infoOf v5000 0; infoOf v1000 3] (Ok 2) [].

(** The second page of validators cannot be fetched. *)
Definition secondPageFails : Upstream :=
  service [v9999; v1000; v5000] (Some 2) [infoOf v9999 0; infoOf v1000 0] (Ok 5) [].

(** Three signing infos behind a page limit of two. *)
Definition threeInfos : list ValidatorSigningInfo :=
  [infoOf v1000 1; infoOf v5000 2; infoOf v9999 3].

Definition manyInfos : Upstream :=
  service [v1000; v5000; v9999] None threeInfos (Ok 1) threeInfos.

(** A validator without a usable public key; the single lookup answers
    for the empty address in the first service and fails in the second. *)
Definition answersEmpty : Upstream :=
  service [vNoKey] None [] (Ok 1) [infoOf vNoKey 4].

Definition refusesEmpty : Upstream :=
  service [vNoKey] None [] (Ok 1) [].

(** The seven validators with two tied ones. *)
Definition sevenService : Upstream :=
  service seven None [] (Ok 7) [].

End Example.

(** ** The upgrade handler (upgrade.go) *)

(** An [int64] result: the mathematical value wrapped into
    [-2^63, 2^63). *)
Definition wrap64 (z : Z) : Z := (z + 2 ^ 63) mod 2 ^ 64 - 2 ^ 63.

(** [strconv.FormatInt(n, 10)]. *)
Definition FormatInt (n : Z) : string := NilZero.string_of_int (Z.to_int n).

(** [upgradetypes.Plan], the fields the handler reads. *)
Record Plan : Type := mkPlan {
  PlanName : string;
  PlanHeight : Z;                                 (* int64 *)
  PlanInfo : string
}.

(** The code behind [NewChainStatus], [ChainStatus.SyncInfo] and
    [ChainStatus.EstimateBlockTime] belongs to the package but is not in
    the files at hand, and [time.Time] ([Instant]) with its formatting is
    library code;
    they are parameters.  [NewChainStatus] stands for the call on the
    service's configuration.  [EstimateBlockTime] gives the time it
    returned and whether [err != nil]: the handler uses the time either
    way. *)
Record ChainLib : Type := mkChainLib {
  ChainStatus : Type;
  Instant : Type;
  NewChainStatus : Reply ChainStatus;
  LatestBlockHeight : ChainStatus -> Z;           (* cs.SyncInfo().LatestBlockHeight *)
  EstimateBlockTime : ChainStatus -> Z -> Instant * bool;
  FormatLocalRFC1123 : Instant -> string             (* t.Local().Format(time.RFC1123) *)
}.

(** One update of the gauge [cosmos_upgrade_plan]: its four labels and the
    integer whose [float64] it is set to. *)
Record UpgradeSample : Type := mkUpgradeSample {
  info : string;
  name : string;
  height : string;
  estimated_time : string;
  remaining : Z
}.

Inductive UpgradeCall : Type :=
| CallCurrentPlan
| CallNewChainStatus
| CallEstimateBlockTime (remainingHeight : Z).

Inductive UpgradeEvent : Type :=
| UpCall (c : UpgradeCall)
| UpLog (l : LogEntry)
| UpSet (s : UpgradeSample).

(** The sample of lines 59-64 and 80-85. *)
Definition noUpgrade : UpgradeSample := mkUpgradeSample "None" "None" "" "" 0.

Section Upgrade.

Variable C : ChainLib.

(** The answer of [upgradeClient.CurrentPlan]: an error, or a response
    whose [Plan] may be nil. *)
Variable CurrentPlan : Reply (option Plan).

(** The goroutine of [GetUpgradeMetrics] (lines 38-102). *)
Definition GetUpgradeMetrics : list UpgradeEvent :=
  let tr := [UpCall CallCurrentPlan] in
  match CurrentPlan with
  | Err => tr ++ [UpLog (mkLog ErrorLevel "Could not get upgrade plan" None)]
  | Ok upgradeRes =>
      let tr := tr ++ [UpLog (mkLog DebugLevel "Finished querying upgrade plan" None)] in
      match upgradeRes with
      | None => tr ++ [UpSet noUpgrade]
      | Some plan =>
          let tr := tr ++ [UpCall CallNewChainStatus] in
          match NewChainStatus C with
          | Err => tr ++ [UpLog (mkLog ErrorLevel "Could not get sync info" None)]
          | Ok cs =>
              let upgradeHeight := PlanHeight plan in
              let remainingHeight :=
                wrap64 (upgradeHeight - LatestBlockHeight C cs) in
              if remainingHeight <=? 0 then tr ++ [UpSet noUpgrade]
              else
                let tr := tr ++ [UpCall (CallEstimateBlockTime remainingHeight)] in
                let '(estimatedTime, failed) :=
                  EstimateBlockTime C cs remainingHeight in
                let tr :=
                  if failed
                  then tr ++ [UpLog (mkLog ErrorLevel "Could not get estimated time"
                                           None)]
                  else tr in
                tr ++ [UpSet (mkUpgradeSample
                                (PlanInfo plan) (PlanName plan)
                                (FormatInt upgradeHeight)
                                (FormatLocalRFC1123 C estimatedTime)
                                remainingHeight)]
          end
      end
  end.

Fixpoint upgradeSamples (tr : list UpgradeEvent) : list UpgradeSample :=
  match tr with
  | [] => []
  | UpSet s :: tl => s :: upgradeSamples tl
  | _ :: tl => upgradeSamples tl
  end.

Fixpoint upgradeCalls (tr : list UpgradeEvent) : list UpgradeCall :=
  match tr with
  | [] => []
  | UpCall c :: tl => c :: upgradeCalls tl
  | _ :: tl => upgradeCalls tl
  end.

Fixpoint upgradeLogs (tr : list UpgradeEvent) : list LogEntry :=
  match tr with
  | [] => []
  | UpLog l :: tl => l :: upgradeLogs tl
  | _ :: tl => upgradeLogs tl
  end.

(** What a request to the upgrade endpoint did: the gauges registered by
    [NewUpgradeMetrics], the events, and the gauge updates behind the
    response written by [h.ServeHTTP]. *)
Record UpgradeRun : Type := mkUpgradeRun {
  upgradeRegistered : list string;
  upgradeTrace : list UpgradeEvent;
  upgradeResponse : list UpgradeSample
}.

(** [UpgradeHandler] (lines 105-127). *)
Definition UpgradeHandler : UpgradeRun :=
  let registered := ["cosmos_upgrade_plan"] in
  let tr := GetUpgradeMetrics in
  mkUpgradeRun registered
               (tr ++ [UpLog (mkLog InfoLevel "Request processed" None)])
               (upgradeSamples tr).

End Upgrade.

(** A chain status that is a latest height, with times counted in seconds
    and a block every six seconds; the estimate fails beyond [horizon]
    blocks. *)
Module UpgradeExample.

Definition chain (status : Reply Z) (horizon : Z) : ChainLib :=
  mkChainLib Z Z status (fun h => h)
             (fun h r => if horizon <? r then (0, true) else (6 * r, false))
             FormatInt.

Definition v2 : Plan := mkPlan "v2" 1000 "https://example.org/v2".

End UpgradeExample.

(** ** Further notions for the properties of the handlers *)

(** Reads a decimal numeral with an optional minus sign. *)
Definition readDecimal (s : string) : option Z :=
  option_map Z.of_int (NilZero.int_of_string s).

(** The value of an upper-case hexadecimal digit, and the bytes a string
    of such digits stands for, two digits to the byte. *)
Definition hexValue (c : ascii) : option N :=
  let n := N_of_ascii c in
  if ((48 <=? n) && (n <=? 57))%N then Some (n - 48)%N
  else if ((65 <=? n) && (n <=? 70))%N then Some (n - 55)%N
  else None.

Fixpoint decodeUpperHex (s : string) : option (list byte) :=
  match s with
  | EmptyString => Some []
  | String hi (String lo tl) =>
      match hexValue hi, hexValue lo, decodeUpperHex tl with
      | Some h, Some l, Some bs =>
          match Byte.of_N (16 * h + l) with
          | Some b => Some (b :: bs)
          | None => None
          end
      | _, _, _ => None
      end
  | String _ EmptyString => None
  end.

Section Tables.

Variable L : Lib.
Variable config : ServiceConfig L.

(** The entries a selector picks from a list of samples, in order. *)
Fixpoint pick {A : Type} (f : Sample L -> option A) (ss : list (Sample L)) : list A :=
  match ss with
  | [] => []
  | s :: tl =>
      match f s with
      | Some a => a :: pick f tl
      | None => pick f tl
      end
  end.

(** A selector that only looks at the gauges of lines 243-314. *)
Definition plainOnly {A : Type} (f : Sample L -> option A) : Prop :=
  forall s, isPlainSample s = false -> f s = None.

Definition statusEntry (s : Sample L) : option (string * string * Z) :=
  match s with
  | StatusCode address moniker code => Some (address, moniker, code)
  | _ => None
  end.

Definition jailedEntry (s : Sample L) : option (string * string * Z) :=
  match s with
  | JailedFlag address moniker jailed => Some (address, moniker, jailed)
  | _ => None
  end.

Definition commissionEntry (s : Sample L) : option (string * float64 L) :=
  match s with
  | Commission address _ rate => Some (address, rate)
  | _ => None
  end.

Definition tokensEntry (s : Sample L) : option (string * string * float64 L) :=
  match s with
  | TokensAmount address _ denom value => Some (address, denom, value)
  | _ => None
  end.

Definition sharesEntry (s : Sample L) : option (string * string * float64 L) :=
  match s with
  | DelegatorSharesAmount address _ denom value => Some (address, denom, value)
  | _ => None
  end.

Definition minSelfEntry (s : Sample L) : option (string * string * float64 L) :=
  match s with
  | MinSelfDelegationAmount address _ denom value => Some (address, denom, value)
  | _ => None
  end.

(** A printed amount as the entry of an amount gauge: parsed and divided
    by the configured coefficient, or no entry when it does not parse. *)
Definition scaledEntry (address printed : string)
  : list (string * string * float64 L) :=
  match ParseFloat L printed with
  | Some value => [(address, Denom L config, quo L value (DenomCoefficient L config))]
  | None => []
  end.

End Tables.

Arguments pick {L A} f ss.
Arguments plainOnly {L A} f.
Arguments statusEntry {L} s.
Arguments jailedEntry {L} s.
Arguments commissionEntry {L} s.
Arguments tokensEntry {L} s.
Arguments sharesEntry {L} s.
Arguments minSelfEntry {L} s.

(** The number of validators of a list that are not jailed. *)
Definition notJailed (vs : list Validator) : Z :=
  Z.of_nat (List.length (filter (fun v => negb (Jailed v)) vs)).

(** Further services for running the handlers. *)
Module MoreExamples.

Import Example.

(** No validators can be fetched at all. *)
Definition validatorsDown : Upstream :=
  service [v1000; v5000] (Some 0) [infoOf v1000 3] (Ok 1) [].

(** The scenario with a bulk signing-info request that fails. *)
Definition bulkDown : Upstream :=
  mkUpstream (Validators scenario) (fun _ => Err) (Params scenario)
             (SigningInfo scenario) (ValidatorDelegations scenario).

(** Two validators whose signing infos both fit the first page. *)
Definition covered : Upstream :=
  service [v1000; v5000] None [infoOf v1000 3; infoOf v5000 8] (Ok 1) [].

(** A validator with three delegations, behind the page limit of two. *)
Definition threeDelegations : list DelegationResponse :=
  [mkDelegation "delegator1" 10; mkDelegation "delegator2" 20;
   mkDelegation "delegator3" 30].

Definition delegated : Upstream :=
  mkUpstream (Validators scenario) (SigningInfos scenario) (Params scenario)
             (SigningInfo scenario) (fun _ p => Ok (pageOf threeDelegations p)).

End MoreExamples.

(** * Properties *)

(** ** The comparator *)

Lemma Cmp_gt_iff (x y : Z) : (Cmp x y >? 0) = true <-> y < x.
Proof.
  unfold Cmp. destruct (Z.compare_spec x y); cbn; split; intro H0;
    try lia; try discriminate; reflexivity.
Qed.

Lemma IsBonded_iff (v : Validator) : IsBonded v = true <-> Status v = Bonded.
Proof.
  unfold IsBonded, BondStatus_eqb. destruct (Status v); cbn; split; congruence.
Qed.

(** [validatorsLess] in one formula. *)
Lemma validatorsLess_iff (a b : Validator) :
  validatorsLess a b = true <->
  (IsBonded a = true /\ IsBonded b = false) \/
  (IsBonded a = IsBonded b /\ DelegatorShares b < DelegatorShares a).
Proof.
  unfold validatorsLess, BigInt.
  destruct (IsBonded a), (IsBonded b); cbn; rewrite ?Cmp_gt_iff;
    intuition (try discriminate; auto).
Qed.

Lemma validatorsLess_false_iff (a b : Validator) :
  validatorsLess b a = false <->
  (IsBonded b = true -> IsBonded a = true) /\
  (IsBonded a = IsBonded b -> DelegatorShares b <= DelegatorShares a).
Proof.
  rewrite <- Bool.not_true_iff_false, validatorsLess_iff.
  destruct (IsBonded a), (IsBonded b); intuition (try discriminate; try lia).
Qed.

Lemma validatorsLess_asym (a b : Validator) :
  validatorsLess a b = true -> validatorsLess b a = false.
Proof.
  rewrite validatorsLess_iff, validatorsLess_false_iff.
  destruct (IsBonded a), (IsBonded b); intuition (try discriminate; try lia).
Qed.

(** "b does not go before a" is transitive: the comparator is a strict weak
    order, which is what [sort.Slice] asks of its [less]. *)
Lemma validatorsLess_false_trans (a b c : Validator) :
  validatorsLess b a = false -> validatorsLess c b = false ->
  validatorsLess c a = false.
Proof.
  rewrite !validatorsLess_false_iff.
  destruct (IsBonded a), (IsBonded b), (IsBonded c);
    intuition (try discriminate; try lia).
Qed.

(** ** Sorted slices *)

Section Sortedness.

Context {A : Type}.
Variable less : A -> A -> bool.
Hypothesis less_asym : forall a b, less a b = true -> less b a = false.
Hypothesis unless_trans :
  forall a b c, less b a = false -> less c b = false -> less c a = false.

Lemma IsSorted_tail (x : A) (l : list A) :
  IsSorted less (x :: l) = true -> IsSorted less l = true.
Proof.
  destruct l as [|y l]; [reflexivity|].
  cbn [IsSorted]. intros H0. apply andb_prop in H0. tauto.
Qed.

(** In a sorted slice no later element is less than an earlier one. *)
Lemma IsSorted_head (x : A) (l : list A) :
  IsSorted less (x :: l) = true -> Forall (fun y => less y x = false) l.
Proof.
  revert x. induction l as [|y l IH]; intros x Hs; [constructor|].
  cbn [IsSorted] in Hs. apply andb_prop in Hs. destruct Hs as [Hyx Hs].
  apply negb_true_iff in Hyx.
  constructor; [exact Hyx|].
  specialize (IH y Hs).
  eapply Forall_impl; [|exact IH].
  intros z Hz. cbn in Hz. eapply unless_trans; eauto.
Qed.

Lemma IsSorted_pairwise (l : list A) :
  IsSorted less l = true ->
  forall (i j : nat) (a b : A),
    (i < j)%nat -> nth_error l i = Some a -> nth_error l j = Some b ->
    less b a = false.
Proof.
  induction l as [|x l IH]; intros Hs i j a b Hij Ha Hb.
  - destruct i; discriminate.
  - destruct j as [|j]; [lia|]. cbn in Hb.
    destruct i as [|i].
    + cbn in Ha. injection Ha as ->.
      pose proof (IsSorted_head _ _ Hs) as Hall.
      rewrite Forall_forall in Hall. apply Hall.
      eapply nth_error_In; eauto.
    + cbn in Ha. eapply (IH (IsSorted_tail _ _ Hs) i j); eauto. lia.
Qed.

(** *** Insertion sort *)

Lemma sinkLeft_head (x : A) (l : list A) :
  exists tl, sinkLeft less x l = x :: tl \/
             (exists p ps, l = p :: ps /\ less x p = true /\
                           sinkLeft less x l = p :: tl).
Proof.
  destruct l as [|p ps]; cbn.
  - exists []. now left.
  - destruct (less x p) eqn:E.
    + exists (sinkLeft less x ps). right. now exists p, ps.
    + exists (p :: ps). now left.
Qed.

Lemma sinkLeft_sorted (x : A) (l : list A) :
  sortedBackwards less l = true -> sortedBackwards less (sinkLeft less x l) = true.
Proof.
  induction l as [|p ps IH]; intros Hs; [reflexivity|].
  cbn [sinkLeft]. destruct (less x p) eqn:E.
  - assert (Hps : sortedBackwards less ps = true).
    { destruct ps; [reflexivity|]. cbn [sortedBackwards] in Hs.
      apply andb_prop in Hs. tauto. }
    specialize (IH Hps).
    destruct ps as [|q qs].
    + cbn. rewrite (less_asym _ _ E). reflexivity.
    + cbn [sinkLeft] in *. destruct (less x q) eqn:E2.
      * cbn [sortedBackwards] in Hs |- *. apply andb_prop in Hs.
        destruct Hs as [Hpq _]. rewrite Hpq. exact IH.
      * change (negb (less p x) && sortedBackwards less (x :: q :: qs) = true).
        rewrite (less_asym _ _ E). exact IH.
  - change (negb (less x p) && sortedBackwards less (p :: ps) = true).
    rewrite E. exact Hs.
Qed.

Lemma sinkLeft_permutes (x : A) (l : list A) :
  Permutation (x :: l) (sinkLeft less x l).
Proof.
  induction l as [|p ps IH]; cbn; [reflexivity|].
  destruct (less x p); [|reflexivity].
  rewrite perm_swap. now apply perm_skip.
Qed.

Lemma IsSorted_snoc (l : list A) (x y : A) :
  IsSorted less (l ++ [x]) = true -> less y x = false ->
  IsSorted less ((l ++ [x]) ++ [y]) = true.
Proof.
  induction l as [|a l IH]; intros Hs Hxy.
  - cbn. now rewrite Hxy.
  - destruct l as [|b l].
    + cbn in *. rewrite Hxy. apply andb_prop in Hs.
      destruct Hs as [-> _]. reflexivity.
    + cbn [app IsSorted] in *. apply andb_prop in Hs.
      destruct Hs as [-> Hs]. cbn. exact (IH Hs Hxy).
Qed.

Lemma sortedBackwards_rev (l : list A) :
  sortedBackwards less l = true -> IsSorted less (rev l) = true.
Proof.
  induction l as [|x l IH]; intros Hs; [reflexivity|].
  destruct l as [|y l]; [reflexivity|].
  cbn [sortedBackwards] in Hs. apply andb_prop in Hs. destruct Hs as [Hxy Hs].
  apply negb_true_iff in Hxy.
  specialize (IH Hs). cbn [rev] in *.
  now apply IsSorted_snoc.
Qed.

Lemma insertion_invariant (l acc : list A) :
  sortedBackwards less acc = true ->
  let out := fold_left (fun rev_sorted x => sinkLeft less x rev_sorted) l acc in
  sortedBackwards less out = true /\ Permutation (rev acc ++ l) (rev out).
Proof.
  revert acc. induction l as [|x l IH]; intros acc Hacc; cbn.
  - rewrite app_nil_r. split; [exact Hacc|reflexivity].
  - destruct (IH (sinkLeft less x acc) (sinkLeft_sorted x acc Hacc)) as [Hs Hp].
    split; [exact Hs|].
    etransitivity; [|exact Hp].
    rewrite <- (Permutation_rev (sinkLeft less x acc)).
    rewrite <- sinkLeft_permutes, <- (Permutation_rev acc).
    symmetry. apply Permutation_middle.
Qed.

Lemma insertionSort_func_sorts (l : list A) :
  IsSorted less (insertionSort_func less l) = true.
Proof.
  unfold insertionSort_func.
  apply sortedBackwards_rev. now apply (insertion_invariant l []).
Qed.

Lemma insertionSort_func_permutes (l : list A) :
  Permutation l (insertionSort_func less l).
Proof.
  unfold insertionSort_func.
  now apply (insertion_invariant l []).
Qed.

(** *** The gap pass *)

Lemma gapPass_permutes (window rest : list A) :
  Permutation (window ++ rest) (gapPass less window rest).
Proof.
  revert window. induction rest as [|y rest IH]; intros window; cbn.
  - now rewrite app_nil_r.
  - destruct window as [|w ws].
    + cbn. apply perm_skip. exact (IH []).
    + destruct (less y w).
      * rewrite <- (IH (ws ++ [w])), <- app_assoc. cbn.
        rewrite <- Permutation_middle.
        rewrite perm_swap. apply perm_skip.
        apply Permutation_cons_app. reflexivity.
      * rewrite <- (IH (ws ++ [y])), <- app_assoc. cbn.
        apply perm_skip. reflexivity.
Qed.

Lemma shellThenInsertion_sorts (l : list A) :
  IsSorted less (shellThenInsertion less l) = true.
Proof. apply insertionSort_func_sorts. Qed.

Lemma shellThenInsertion_permutes (l : list A) :
  Permutation l (shellThenInsertion less l).
Proof.
  unfold shellThenInsertion.
  rewrite <- insertionSort_func_permutes, <- gapPass_permutes.
  now rewrite firstn_skipn.
Qed.

End Sortedness.

(** Both sorting procedures keep the promise of [sort.Slice]. *)
Lemma insertionSort_func_contract :
  SliceContract (insertionSort_func validatorsLess).
Proof.
  split; intros vs.
  - apply insertionSort_func_permutes, validatorsLess_asym.
  - apply insertionSort_func_sorts, validatorsLess_asym.
Qed.

Lemma shellThenInsertion_contract :
  SliceContract (shellThenInsertion validatorsLess).
Proof.
  split; intros vs.
  - apply shellThenInsertion_permutes, validatorsLess_asym.
  - apply shellThenInsertion_sorts, validatorsLess_asym.
Qed.

(** In a slice sorted with [validatorsLess], positions follow the bonded
    state first and the shares second. *)
Lemma sorted_positions (l : list Validator) :
  IsSorted validatorsLess l = true ->
  forall (i j : nat) (a b : Validator),
    nth_error l i = Some a -> nth_error l j = Some b ->
    (IsBonded a = true -> IsBonded b = false -> (i < j)%nat) /\
    ((i < j)%nat -> IsBonded a = IsBonded b ->
     DelegatorShares b <= DelegatorShares a).
Proof.
  intros Hs i j a b Ha Hb.
  pose proof (IsSorted_pairwise validatorsLess validatorsLess_false_trans l Hs) as Hp.
  split.
  - intros Hba Hbb.
    destruct (Nat.lt_trichotomy i j) as [Hlt|[Heq|Hgt]]; [exact Hlt| |].
    + subst j. rewrite Ha in Hb. injection Hb as <-. congruence.
    + specialize (Hp j i b a Hgt Hb Ha).
      apply validatorsLess_false_iff in Hp. destruct Hp as [Hp _].
      specialize (Hp Hba). congruence.
  - intros Hlt Hsame.
    specialize (Hp i j a b Hlt Ha Hb).
    apply validatorsLess_false_iff in Hp. destruct Hp as [_ Hp]. auto.
Qed.

Section ValidatorOrder.

Variable L : Lib.
Variable config : ServiceConfig L.
Variable up : Upstream.
Hypothesis contract : SliceContract (sort_Slice L validatorsLess).

(** C1.  When the page loop ends at an empty page, the goroutine leaves
    the collected validators sorted: the result holds the same
    validators, a bonded validator stands before every validator that is
    not bonded whatever their shares, and of two validators with the same
    bonded state the one standing first has delegator shares at least as
    large, the shares being compared as unbounded integers. *)
Theorem sort_puts_bonded_first_then_larger_shares
        (fuel : nat) (collected : list Validator) (tr : list (Event L)) :
  validatorsLoop L config up fuel 0 []
                 [logAt DebugLevel "Started querying validators" None]
  = Some (ByBreak, collected, tr) ->
  exists sorted tr',
    queryValidators L config up fuel = Some (sorted, tr') /\
    Permutation collected sorted /\
    forall (i j : nat) (a b : Validator),
      nth_error sorted i = Some a -> nth_error sorted j = Some b ->
      (IsBonded a = true -> IsBonded b = false -> (i < j)%nat) /\
      ((i < j)%nat -> IsBonded a = IsBonded b ->
       DelegatorShares b <= DelegatorShares a).
Proof.
  intros Hloop. unfold queryValidators. rewrite Hloop.
  eexists. eexists. split; [reflexivity|].
  split; [apply (Slice_permutes _ contract)|].
  apply sorted_positions, (Slice_sorts _ contract).
Qed.

(** C2, as the code has it.  [sort.Slice] returns the validators it was
    given, and validators tied on bonded state and shares end up on
    consecutive positions: whatever stands between two tied validators is
    tied with them.  Which of two tied validators comes first is left to
    [sort.Slice]. *)
Theorem sort_keeps_tied_validators_together
        (vs : list Validator) (i k j : nat) (a c b : Validator) :
  (i <= k)%nat -> (k <= j)%nat ->
  nth_error (sort_Slice L validatorsLess vs) i = Some a ->
  nth_error (sort_Slice L validatorsLess vs) k = Some c ->
  nth_error (sort_Slice L validatorsLess vs) j = Some b ->
  tied a b ->
  Permutation vs (sort_Slice L validatorsLess vs) /\ tied a c /\ tied c b.
Proof.
  intros Hik Hkj Ha Hc Hb [Hbond Hshares].
  split; [apply (Slice_permutes _ contract)|].
  pose proof (IsSorted_pairwise validatorsLess validatorsLess_false_trans _
                                (Slice_sorts _ contract vs)) as Hp.
  assert (Hac : validatorsLess c a = false).
  { destruct (Nat.eq_dec i k) as [->|Hne].
    - rewrite Ha in Hc. injection Hc as <-.
      apply validatorsLess_false_iff. split; auto. lia.
    - apply (Hp i k a c); auto. lia. }
  assert (Hcb : validatorsLess b c = false).
  { destruct (Nat.eq_dec k j) as [->|Hne].
    - rewrite Hc in Hb. injection Hb as <-.
      apply validatorsLess_false_iff. split; auto. lia.
    - apply (Hp k j c b); auto. lia. }
  apply validatorsLess_false_iff in Hac, Hcb. unfold tied.
  destruct Hac as [Hac1 Hac2], Hcb as [Hcb1 Hcb2].
  assert (Hbc : IsBonded a = IsBonded c).
  { revert Hbond Hac1 Hcb1.
    destruct (IsBonded a), (IsBonded b), (IsBonded c); intuition congruence. }
  assert (Hcb' : IsBonded c = IsBonded b) by congruence.
  specialize (Hac2 Hbc). specialize (Hcb2 Hcb').
  repeat split; auto; lia.
Qed.

End ValidatorOrder.

(** ** One iteration of the loop over the validators *)

Section LoopFacts.

Variable L : Lib.
Variable config : ServiceConfig L.
Variable up : Upstream.

Lemma samplesOf_app (a b : list (Event L)) :
  samplesOf (a ++ b) = samplesOf a ++ samplesOf b.
Proof.
  induction a as [|[q|l|s] a IH]; cbn; auto. now rewrite IH.
Qed.

Lemma queriesOf_app (a b : list (Event L)) :
  queriesOf (a ++ b) = queriesOf a ++ queriesOf b.
Proof.
  induction a as [|[q|l|s] a IH]; cbn; auto. now rewrite IH.
Qed.

Lemma logsOf_app (a b : list (Event L)) :
  logsOf (a ++ b) = logsOf a ++ logsOf b.
Proof.
  induction a as [|[q|l|s] a IH]; cbn; auto. now rewrite IH.
Qed.

Lemma activeFlags_app (a b : list (Sample L)) :
  activeFlags (a ++ b) = activeFlags a ++ activeFlags b.
Proof.
  induction a as [|s a IH]; cbn; auto. destruct s; cbn; now rewrite ?IH.
Qed.

Lemma ranksOf_app (a b : list (Sample L)) :
  ranksOf (a ++ b) = ranksOf a ++ ranksOf b.
Proof.
  induction a as [|s a IH]; cbn; auto. destruct s; cbn; now rewrite ?IH.
Qed.

Lemma extend_nil (st : LoopState L) : extend st [] = st.
Proof. destruct st. unfold extend. cbn. now rewrite app_nil_r. Qed.

Lemma extend_extend (st : LoopState L) (a b : list (Event L)) :
  extend (extend st a) b = extend st (a ++ b).
Proof. unfold extend. cbn. now rewrite app_assoc. Qed.

Lemma emit_extend (e : Event L) (st : LoopState L) (a : list (Event L)) :
  emit e (extend st a) = extend st (a ++ [e]).
Proof. unfold emit, extend. cbn. now rewrite app_assoc. Qed.

Lemma emit_as_extend (e : Event L) (st : LoopState L) : emit e st = extend st [e].
Proof. reflexivity. Qed.

Lemma setScaled_extend (printed failure address : string)
      (gauge : float64 L -> Sample L) (st : LoopState L) (a : list (Event L)) :
  setScaled L config printed failure address gauge (extend st a) =
  extend st (a ++ trace (setScaled L config printed failure address gauge
                                   (mkState 0 []))).
Proof.
  unfold setScaled. destruct (ParseFloat L printed); apply emit_extend.
Qed.

(** Lines 243-314 append the same events whatever the state. *)
Lemma setPlainGauges_extend (v : Validator) (st : LoopState L) :
  setPlainGauges L config v st = extend st (plainEvents L config v).
Proof.
  destruct st as [count tr].
  unfold plainEvents, setPlainGauges, setScaled, emit, extend.
  destruct (ParseFloat L (Dec_String L (CommissionRate v)));
    destruct (ParseFloat L (Int_String L (Tokens v)));
    destruct (ParseFloat L (Dec_String L (DelegatorShares v)));
    destruct (ParseFloat L (Int_String L (MinSelfDelegation v)));
    cbn; rewrite <- ?app_assoc; reflexivity.
Qed.

Lemma plainEvents_quiet (v : Validator) : quiet (plainEvents L config v).
Proof.
  unfold plainEvents, setPlainGauges, setScaled, quiet.
  destruct (ParseFloat L (Dec_String L (CommissionRate v)));
    destruct (ParseFloat L (Int_String L (Tokens v)));
    destruct (ParseFloat L (Dec_String L (DelegatorShares v)));
    destruct (ParseFloat L (Int_String L (MinSelfDelegation v)));
    split; reflexivity.
Qed.

(** The status and jailed gauges are always among them. *)
Lemma plainEvents_status_jailed (v : Validator) :
  In (EvSet (StatusCode (OperatorAddress v) (Moniker v)
                        (BondStatus_code (Status v))))
     (plainEvents L config v) /\
  In (EvSet (JailedFlag (OperatorAddress v) (Moniker v)
                        (if Jailed v then 1 else 0)))
     (plainEvents L config v).
Proof.
  unfold plainEvents, setPlainGauges, setScaled.
  destruct (ParseFloat L (Dec_String L (CommissionRate v)));
    destruct (ParseFloat L (Int_String L (Tokens v)));
    destruct (ParseFloat L (Dec_String L (DelegatorShares v)));
    destruct (ParseFloat L (Int_String L (MinSelfDelegation v)));
    cbn; intuition.
Qed.

Lemma derivePubKey_extend (v : Validator) (st : LoopState L) :
  derivePubKey L v st = (pubKeyOf L v, extend st (deriveEvents L v)).
Proof.
  unfold deriveEvents, derivePubKey, pubKeyOf.
  destruct (GetConsAddr L v) as [pubKey failed]. cbn [fst snd].
  destruct (UnpackInterfaces L v), failed; cbn [snd];
    rewrite ?emit_as_extend, ?extend_extend, ?extend_nil; reflexivity.
Qed.

Lemma deriveEvents_quiet (v : Validator) : quiet (deriveEvents L v).
Proof.
  unfold deriveEvents, derivePubKey, quiet.
  destruct (GetConsAddr L v) as [pubKey failed].
  destruct (UnpackInterfaces L v), failed; split; reflexivity.
Qed.

(** A failed derivation of the consensus address is logged. *)
Lemma deriveEvents_logs_failure (v : Validator) :
  snd (GetConsAddr L v) = true ->
  In (logAt ErrorLevel "Could not get validator pubkey" (Some (OperatorAddress v)))
     (deriveEvents L v).
Proof.
  unfold deriveEvents, derivePubKey.
  destruct (GetConsAddr L v) as [pubKey failed]. cbn [snd]. intros ->.
  destruct (UnpackInterfaces L v); cbn; intuition.
Qed.

Lemma quiet_app (a b : list (Event L)) : quiet a -> quiet b -> quiet (a ++ b).
Proof.
  unfold quiet. intros [Ha1 Ha2] [Hb1 Hb2].
  rewrite queriesOf_app, samplesOf_app, forallb_app, Ha1, Ha2, Hb1, Hb2.
  split; reflexivity.
Qed.

(** The scan of lines 335-341 is a search for the first record with the
    key. *)
Lemma scanSigningInfos_find (key : string) (signingInfos : list ValidatorSigningInfo) :
  scanSigningInfos key signingInfos =
  match find (fun si => String.eqb key (Address si)) signingInfos with
  | Some si => (true, si)
  | None => (false, zeroSigningInfo)
  end.
Proof.
  induction signingInfos as [|si rest IH]; cbn; [reflexivity|].
  destruct (String.eqb key (Address si)); [reflexivity|exact IH].
Qed.

(** The whole loop body, by the outcome of the signing-info join.  Without
    a match the iteration ends after the failed lookup; with a match it
    goes on to the missed-blocks, rank and active gauges. *)
Lemma validatorBody_shape (signingInfos : list ValidatorSigningInfo)
      (validatorSetLength : Z) (index : nat) (v : Validator) (st : LoopState L) :
  validatorBody L config up signingInfos validatorSetLength index v st =
  let pre := plainEvents L config v ++ deriveEvents L v ++ lookupEvents L signingInfos v in
  match signingInfoMatch up signingInfos (joinKey L v) with
  | None =>
      extend st (pre ++ [logAt DebugLevel "Could not get signing info for validator"
                               (Some (OperatorAddress v))])
  | Some si =>
      setActive L validatorSetLength v (pubKeyOf L v)
                (extend st (pre ++ [missedEvent v si; rankEvent index v]))
  end.
Proof.
  unfold validatorBody.
  rewrite setPlainGauges_extend, derivePubKey_extend, extend_extend.
  fold (joinKey L v).
  rewrite scanSigningInfos_find.
  unfold signingInfoMatch, lookupEvents, fallbackLookup.
  destruct (find (fun si => String.eqb (joinKey L v) (Address si)) signingInfos)
    as [si|] eqn:Hfind; cbn [negb].
  - unfold setMissedBlocks, setRank, missedEvent, rankEvent. cbn [andb].
    rewrite app_nil_r.
    destruct (BondStatus_eqb (Status v) Bonded);
      rewrite !emit_extend, <- !app_assoc; reflexivity.
  - rewrite emit_extend.
    destruct (SigningInfo up (joinKey L v)) as [|si].
    + rewrite emit_extend, <- !app_assoc. reflexivity.
    + unfold setMissedBlocks, setRank, missedEvent, rankEvent. cbn [andb].
      destruct (BondStatus_eqb (Status v) Bonded);
        rewrite !emit_extend, <- !app_assoc; reflexivity.
Qed.

End LoopFacts.

(** ** The loop as a whole *)

Section LoopWhole.

Variable L : Lib.
Variable config : ServiceConfig L.
Variable up : Upstream.
Variable signingInfos : list ValidatorSigningInfo.

Lemma setActive_extend (validatorSetLength : Z) (v : Validator) (st : LoopState L) :
  setActive L validatorSetLength v (pubKeyOf L v) st =
  if validatorSetLength =? 0 then st
  else mkState (activeValidators st
                + activeValue validatorSetLength (activeValidators st) v)
               (trace st ++
                [EvSet (activeSampleFor L v
                          (activeValue validatorSetLength (activeValidators st) v))]).
Proof.
  unfold setActive, activeValue, activeSampleFor, emit.
  destruct (validatorSetLength =? 0); cbn [negb]; [reflexivity|].
  cbn [activeValidators trace].
  destruct (Jailed v), (activeValidators st =? validatorSetLength); reflexivity.
Qed.

(** One iteration appends [stepEvents] and leaves [stepCount]. *)
Lemma validatorBody_step (validatorSetLength : Z) (index : nat) (v : Validator)
      (st : LoopState L) :
  validatorBody L config up signingInfos validatorSetLength index v st =
  mkState (stepCount L up signingInfos validatorSetLength v (activeValidators st))
          (trace st ++
           stepEvents L config up signingInfos validatorSetLength index v
                      (activeValidators st)).
Proof.
  rewrite validatorBody_shape. cbv zeta. unfold stepEvents, stepCount.
  destruct (signingInfoMatch up signingInfos (joinKey L v)) as [si|].
  - rewrite setActive_extend. unfold extend. cbn [activeValidators trace].
    destruct (validatorSetLength =? 0); rewrite <- ?app_assoc; cbn [app];
      rewrite ?app_nil_r; reflexivity.
  - unfold extend. rewrite <- !app_assoc. reflexivity.
Qed.

(** *** What the events of one iteration contain *)

Lemma plain_activeFlags (ss : list (Sample L)) :
  forallb isPlainSample ss = true ->
  activeFlags ss = [] /\ ranksOf ss = [] /\ dropActive ss = ss /\
  filter isActiveSample ss = [] /\
  forall a m n, ~ In (MissedBlocks a m n) ss.
Proof.
  induction ss as [|s ss IH]; intros Hp.
  - repeat split; auto.
  - cbn [forallb] in Hp. apply andb_prop in Hp. destruct Hp as [Hs Hp].
    destruct (IH Hp) as (Ha & Hr & Hd & Hf & Hm).
    destruct s; try discriminate; cbn; rewrite ?Ha, ?Hr, ?Hf;
      unfold dropActive in *; cbn; rewrite ?Hd;
      repeat split; auto; intros a m n [Heq|Hin]; try discriminate;
      exact (Hm a m n Hin).
Qed.

Lemma pre_quiet (v : Validator) :
  forallb isPlainSample
          (samplesOf (plainEvents L config v ++ deriveEvents L v
                      ++ lookupEvents L signingInfos v)) = true.
Proof.
  rewrite !samplesOf_app, !forallb_app.
  destruct (plainEvents_quiet L config v) as [_ ->].
  destruct (deriveEvents_quiet L v) as [_ ->].
  unfold lookupEvents.
  destruct (find _ signingInfos); reflexivity.
Qed.

(** The samples of one iteration: the plain gauges, and after a match the
    missed-blocks, rank and active gauges. *)
Lemma stepEvents_samples (validatorSetLength : Z) (index : nat) (v : Validator)
      (count : Z) :
  exists plain,
    forallb isPlainSample plain = true /\
    (forall vsl' index' count',
        samplesOf (stepEvents L config up signingInfos vsl' index' v count') =
        plain ++
        match signingInfoMatch up signingInfos (joinKey L v) with
        | None => []
        | Some si =>
            samplesOf [missedEvent v si] ++
            [Rank (OperatorAddress v) (Moniker v) (Z.of_nat index' + 1)] ++
            (if vsl' =? 0 then []
             else [activeSampleFor L v (activeValue vsl' count' v)])
        end).
Proof.
  exists (samplesOf (plainEvents L config v ++ deriveEvents L v
                     ++ lookupEvents L signingInfos v)).
  split; [apply pre_quiet|].
  intros vsl' index' count'. unfold stepEvents.
  rewrite !samplesOf_app, <- !app_assoc.
  do 3 f_equal.
  destruct (signingInfoMatch up signingInfos (joinKey L v)) as [si|];
    [|reflexivity].
  unfold missedEvent, rankEvent.
  destruct (BondStatus_eqb (Status v) Bonded), (vsl' =? 0); reflexivity.
Qed.

(** *** Induction over the validators *)

Lemma rangeValidators_app_trace (validatorSetLength : Z) (vs : list Validator) :
  forall (index : nat) (st : LoopState L),
  exists evs,
    trace (rangeValidators L config up signingInfos validatorSetLength index vs st)
    = trace st ++ evs.
Proof.
  induction vs as [|v vs IH]; intros index st; cbn [rangeValidators].
  - exists []. now rewrite app_nil_r.
  - destruct (IH (S index)
                 (validatorBody L config up signingInfos validatorSetLength
                                index v st)) as [evs Hevs].
    rewrite Hevs, validatorBody_step. cbn [trace].
    eexists. rewrite <- app_assoc. reflexivity.
Qed.

End LoopWhole.

(** ** Handing out the active values *)

Lemma activeValue_01 (vsl count : Z) (v : Validator) :
  activeValue vsl count v = 0 \/ activeValue vsl count v = 1.
Proof.
  unfold activeValue. destruct (Jailed v), (count =? vsl); auto.
Qed.

Lemma countOnes_cons (f : Z) (flags : list Z) :
  countOnes (f :: flags) = (if f =? 1 then 1 else 0) + countOnes flags.
Proof.
  unfold countOnes. cbn [filter]. destruct (f =? 1); cbn [List.length]; lia.
Qed.

Lemma countOnes_nonneg (flags : list Z) : 0 <= countOnes flags.
Proof. unfold countOnes. lia. Qed.

Lemma assign_length (vsl : Z) (vs : list Validator) :
  forall count, List.length (assign vsl count vs) = List.length vs.
Proof.
  induction vs as [|v vs IH]; intros count; cbn; [reflexivity|].
  now rewrite IH.
Qed.

Lemma assign_01 (vsl : Z) (vs : list Validator) :
  forall count, Forall (fun f => f = 0 \/ f = 1) (assign vsl count vs).
Proof.
  induction vs as [|v vs IH]; intros count; cbn; constructor.
  - apply activeValue_01.
  - apply IH.
Qed.

(** The counter never passes the capacity. *)
Lemma assign_bounded (vsl : Z) (vs : list Validator) :
  forall count, 0 <= count <= vsl ->
                count + countOnes (assign vsl count vs) <= vsl.
Proof.
  induction vs as [|v vs IH]; intros count Hc; cbn [assign].
  - unfold countOnes. cbn. lia.
  - rewrite countOnes_cons.
    pose proof (IH (count + activeValue vsl count v)) as IH'.
    cbv zeta. unfold activeValue in *.
    destruct (Jailed v); [|destruct (count =? vsl) eqn:E];
      cbn [Z.eqb Pos.eqb] in *; rewrite ?Z.add_0_r in *;
      try apply Z.eqb_neq in E; lia.
Qed.

(** A jailed validator gets 0. *)
Lemma assign_jailed (vsl : Z) (vs : list Validator) :
  forall count k v,
    nth_error vs k = Some v -> Jailed v = true ->
    nth_error (assign vsl count vs) k = Some 0.
Proof.
  induction vs as [|w vs IH]; intros count k v Hk Hj.
  - destruct k; discriminate.
  - destruct k as [|k]; cbn in *.
    + injection Hk as ->. unfold activeValue. now rewrite Hj.
    + eapply IH; eauto.
Qed.

(** A validator that is not jailed gets 0 only when the capacity is used
    up by the validators before it. *)
Lemma assign_full (vsl : Z) (vs : list Validator) :
  forall count k v,
    nth_error vs k = Some v -> Jailed v = false ->
    nth_error (assign vsl count vs) k = Some 0 ->
    count + countOnes (firstn k (assign vsl count vs)) = vsl.
Proof.
  induction vs as [|w vs IH]; intros count k v Hk Hj H0.
  - destruct k; discriminate.
  - destruct k as [|k]; cbn [nth_error assign firstn] in *.
    + injection Hk as ->. unfold activeValue in H0. rewrite Hj in H0.
      destruct (count =? vsl) eqn:E; [|discriminate].
      apply Z.eqb_eq in E. unfold countOnes. cbn. lia.
    + rewrite countOnes_cons.
      specialize (IH _ _ _ Hk Hj H0).
      destruct (activeValue_01 vsl count w) as [E|E]; rewrite E in *;
        cbn [Z.eqb Pos.eqb]; lia.
Qed.

Section LoopInduction.

Variable L : Lib.
Variable config : ServiceConfig L.
Variable up : Upstream.
Variable signingInfos : list ValidatorSigningInfo.

Let range := rangeValidators L config up signingInfos.

Lemma activeFlags_missed (v : Validator) (si : ValidatorSigningInfo) :
  activeFlags (samplesOf [@missedEvent L v si]) = [] /\
  ranksOf (samplesOf [@missedEvent L v si]) = [] /\
  filter isActiveSample (samplesOf [@missedEvent L v si]) = [] /\
  dropActive (samplesOf [@missedEvent L v si]) = samplesOf [@missedEvent L v si].
Proof.
  unfold missedEvent. destruct (BondStatus_eqb (Status v) Bonded); cbn; auto.
Qed.

(** The rank gauge is set once for every validator with a match, to its
    position plus one. *)
Lemma rangeValidators_ranks (vsl : Z) (vs : list Validator) :
  forall (index : nat) (st : LoopState L),
    ranksOf (samplesOf (trace (range vsl index vs st))) =
    ranksOf (samplesOf (trace st)) ++ ranksSet L up signingInfos index vs.
Proof.
  subst range.
  induction vs as [|v vs IH]; intros index st; cbn [rangeValidators ranksSet].
  - now rewrite app_nil_r.
  - rewrite IH, validatorBody_step. cbn [trace].
    rewrite samplesOf_app, ranksOf_app, <- app_assoc. f_equal.
    destruct (stepEvents_samples L config up signingInfos vsl index v
                                 (activeValidators st)) as (plain & Hplain & Heq).
    rewrite Heq, ranksOf_app.
    destruct (plain_activeFlags L plain Hplain) as (_ & -> & _).
    cbn [app].
    destruct (signingInfoMatch up signingInfos (joinKey L v)) as [si|];
      [|reflexivity].
    rewrite ranksOf_app.
    destruct (activeFlags_missed v si) as (_ & -> & _).
    destruct (vsl =? 0); reflexivity.
Qed.

(** With the active set enabled, the validators with a match get the
    values of [assign], in order, and the counter counts the ones. *)
Lemma rangeValidators_active (vsl : Z) (vs : list Validator) :
  (vsl =? 0) = false ->
  forall (index : nat) (st : LoopState L),
    let rs := reached L up signingInfos vs in
    let flags := assign vsl (activeValidators st) rs in
    filter isActiveSample (samplesOf (trace (range vsl index vs st))) =
    filter isActiveSample (samplesOf (trace st)) ++
    map (fun p => activeSampleFor L (fst p) (snd p)) (combine rs flags) /\
    activeFlags (samplesOf (trace (range vsl index vs st))) =
    activeFlags (samplesOf (trace st)) ++ flags /\
    activeValidators (range vsl index vs st) =
    activeValidators st + countOnes flags.
Proof.
  subst range. intros Hvsl.
  induction vs as [|v vs IH]; intros index st; cbn [rangeValidators reached filter].
  - cbn. rewrite !app_nil_r. unfold countOnes. cbn. repeat split; lia.
  - specialize (IH (S index)
                   (validatorBody L config up signingInfos vsl index v st)).
    cbv zeta in IH. destruct IH as (IH1 & IH2 & IH3).
    rewrite IH1, IH2, IH3. clear IH1 IH2 IH3.
    rewrite validatorBody_step. cbn [trace activeValidators].
    rewrite samplesOf_app, filter_app, activeFlags_app.
    destruct (stepEvents_samples L config up signingInfos vsl index v
                                 (activeValidators st)) as (plain & Hplain & Heq).
    rewrite Heq, filter_app, activeFlags_app.
    destruct (plain_activeFlags L plain Hplain) as (-> & _ & _ & -> & _).
    unfold stepCount. fold (reached L up signingInfos vs).
    destruct (signingInfoMatch up signingInfos (joinKey L v)) as [si|].
    + rewrite Hvsl, filter_app, activeFlags_app.
      destruct (activeFlags_missed v si) as (-> & _ & -> & _).
      cbn [app filter isActiveSample activeFlags assign combine map fst snd
               activeSampleFor].
      rewrite countOnes_cons, <- !app_assoc. cbn [app].
      repeat split; try reflexivity.
      destruct (activeValue_01 vsl (activeValidators st) v) as [E|E];
        rewrite E; cbn [Z.eqb Pos.eqb]; lia.
    + cbn [app]. rewrite !app_nil_r. repeat split; reflexivity.
Qed.

(** With the active set disabled, the counter and the active gauge are
    left alone. *)
Lemma rangeValidators_disabled (vs : list Validator) :
  forall (index : nat) (st : LoopState L),
    activeValidators (range 0 index vs st) = activeValidators st /\
    filter isActiveSample (samplesOf (trace (range 0 index vs st))) =
    filter isActiveSample (samplesOf (trace st)).
Proof.
  subst range.
  induction vs as [|v vs IH]; intros index st; cbn [rangeValidators].
  - split; reflexivity.
  - destruct (IH (S index) (validatorBody L config up signingInfos 0 index v st))
      as [IH1 IH2].
    rewrite IH1, IH2, validatorBody_step. cbn [trace activeValidators].
    unfold stepCount. cbn [Z.eqb].
    split; [destruct (signingInfoMatch up signingInfos (joinKey L v)); reflexivity|].
    rewrite samplesOf_app, filter_app.
    destruct (stepEvents_samples L config up signingInfos 0 index v
                                 (activeValidators st)) as (plain & Hplain & Heq).
    rewrite Heq, filter_app.
    destruct (plain_activeFlags L plain Hplain) as (_ & _ & _ & -> & _).
    destruct (signingInfoMatch up signingInfos (joinKey L v)) as [si|].
    + rewrite filter_app.
      destruct (activeFlags_missed v si) as (_ & _ & -> & _).
      cbn. now rewrite app_nil_r.
    + cbn. now rewrite app_nil_r.
Qed.

(** Apart from the active gauge, the samples do not depend on the
    capacity or on the counter. *)
Lemma rangeValidators_other_samples (vsl vsl' : Z) (vs : list Validator) :
  forall (index : nat) (st st' : LoopState L),
    dropActive (samplesOf (trace st)) = dropActive (samplesOf (trace st')) ->
    dropActive (samplesOf (trace (range vsl index vs st))) =
    dropActive (samplesOf (trace (range vsl' index vs st'))).
Proof.
  subst range.
  induction vs as [|v vs IH]; intros index st st' Hst; cbn [rangeValidators].
  - exact Hst.
  - apply IH. rewrite !validatorBody_step. cbn [trace].
    rewrite !samplesOf_app. unfold dropActive in *. rewrite !filter_app, Hst.
    f_equal.
    destruct (stepEvents_samples L config up signingInfos vsl index v
                                 (activeValidators st)) as (plain & Hplain & Heq).
    rewrite !Heq, !filter_app. f_equal.
    destruct (signingInfoMatch up signingInfos (joinKey L v)) as [si|];
      [|reflexivity].
    rewrite !filter_app. f_equal.
    destruct (vsl =? 0), (vsl' =? 0); reflexivity.
Qed.

End LoopInduction.

Section MissedBlocksAndQueries.

Variable L : Lib.
Variable config : ServiceConfig L.
Variable up : Upstream.
Variable signingInfos : list ValidatorSigningInfo.

Let range := rangeValidators L config up signingInfos.

Lemma missedEvent_sample (v : Validator) (si : ValidatorSigningInfo)
      (a m : string) (n : Z) :
  In (MissedBlocks a m n) (samplesOf [@missedEvent L v si]) <->
  OperatorAddress v = a /\ Moniker v = m /\ Status v = Bonded /\
  MissedBlocksCounter si = n.
Proof.
  unfold missedEvent. destruct (BondStatus_eqb (Status v) Bonded) eqn:E.
  - assert (Hb : Status v = Bonded) by (apply IsBonded_iff; exact E).
    cbn. split.
    + intros [Heq|[]]. injection Heq as <- <- <-. auto.
    + intros (<- & <- & _ & <-). auto.
  - assert (Hb : Status v <> Bonded).
    { intros Hb. apply IsBonded_iff in Hb. unfold IsBonded in Hb. congruence. }
    cbn. split; [intros []|]. intros (_ & _ & Hs & _). contradiction.
Qed.

(** The missed-blocks gauge is set for a validator exactly when it is
    bonded and has a signing-info match, to the counter of the match. *)
Lemma rangeValidators_missed (vsl : Z) (vs : list Validator) (a m : string) (n : Z) :
  forall (index : nat) (st : LoopState L),
    In (MissedBlocks a m n) (samplesOf (trace (range vsl index vs st))) <->
    In (MissedBlocks a m n) (samplesOf (trace st)) \/
    exists v si,
      In v vs /\ OperatorAddress v = a /\ Moniker v = m /\ Status v = Bonded /\
      signingInfoMatch up signingInfos (joinKey L v) = Some si /\
      MissedBlocksCounter si = n.
Proof.
  subst range.
  induction vs as [|v vs IH]; intros index st; cbn [rangeValidators].
  - split; [auto|]. intros [H0|(v & si & [] & _)]. exact H0.
  - rewrite IH, validatorBody_step. cbn [trace].
    rewrite samplesOf_app, in_app_iff.
    destruct (stepEvents_samples L config up signingInfos vsl index v
                                 (activeValidators st)) as (plain & Hplain & Heq).
    rewrite Heq, in_app_iff.
    destruct (plain_activeFlags L plain Hplain) as (_ & _ & _ & _ & Hno).
    destruct (signingInfoMatch up signingInfos (joinKey L v)) as [si|] eqn:Hm.
    + rewrite in_app_iff, missedEvent_sample.
      split.
      * intros [[H0|[H0|[H0|H0]]]|(w & sw & Hin & Hw)]; auto.
        -- exfalso. exact (Hno _ _ _ H0).
        -- destruct H0 as (Ha & Hmo & Hs & Hn).
           right. exists v, si. cbn. auto 10.
        -- exfalso. cbn in H0. destruct (vsl =? 0); cbn in H0;
             intuition discriminate.
        -- right. exists w, sw. cbn. auto.
      * intros [H0|(w & sw & [->|Hin] & Ha & Hmo & Hs & Hw & Hn)]; auto.
        -- rewrite Hm in Hw. injection Hw as <-. left. right. right. left. auto.
        -- right. exists w, sw. auto 10.
    + split.
      * intros [[H0|[H0|[]]]|(w & sw & Hin & Hw)]; auto.
        -- exfalso. exact (Hno _ _ _ H0).
        -- right. exists w, sw. cbn. auto.
      * intros [H0|(w & sw & [->|Hin] & Ha & Hmo & Hs & Hw & Hn)]; auto.
        -- congruence.
        -- right. exists w, sw. auto 10.
Qed.

(** The only queries of the loop are the single lookups, one for each
    validator the bulk set has no record for. *)
Lemma rangeValidators_queries (vsl : Z) (vs : list Validator) :
  forall (index : nat) (st : LoopState L),
    queriesOf (trace (range vsl index vs st)) =
    queriesOf (trace st) ++
    flat_map (fun v => queriesOf (lookupEvents L signingInfos v)) vs.
Proof.
  subst range.
  induction vs as [|v vs IH]; intros index st; cbn [rangeValidators flat_map].
  - now rewrite app_nil_r.
  - rewrite IH, validatorBody_step. cbn [trace].
    rewrite queriesOf_app, <- app_assoc. f_equal. f_equal.
    unfold stepEvents. rewrite !queriesOf_app.
    destruct (plainEvents_quiet L config v) as [-> _].
    destruct (deriveEvents_quiet L v) as [-> _].
    cbn [app].
    destruct (signingInfoMatch up signingInfos (joinKey L v)) as [si|].
    + unfold missedEvent.
      destruct (BondStatus_eqb (Status v) Bonded), (vsl =? 0); cbn;
        now rewrite app_nil_r.
    + cbn. now rewrite app_nil_r.
Qed.

(** Every validator with a match gets its rank: position plus one. *)
Lemma ranksSet_all_matched (vs : list Validator) :
  (forall v, In v vs -> signingInfoMatch up signingInfos (joinKey L v) <> None) ->
  forall index,
    ranksSet L up signingInfos index vs =
    countingFrom (Z.of_nat index + 1) (List.length vs).
Proof.
  induction vs as [|v vs IH]; intros Hall index; cbn; [reflexivity|].
  destruct (signingInfoMatch up signingInfos (joinKey L v)) eqn:Hm.
  - f_equal. rewrite IH by (intros w Hw; apply Hall; now right).
    f_equal. lia.
  - exfalso. apply (Hall v); [now left|exact Hm].
Qed.

End MissedBlocksAndQueries.

(** ** The handler *)

Section HandlerFacts.

Variable L : Lib.
Variable config : ServiceConfig L.
Variable up : Upstream.

(** The pieces of a run. *)
Lemma ValidatorsHandler_run (fuel : nat) (run : ValidatorsRun L) :
  ValidatorsHandler L config up fuel = Some run ->
  let st := rangeValidators L config up (fetchedSigningInfos run)
                            (fetchedSetLength run) 0 (fetchedValidators run)
                            (mkState 0 [logAt InfoLevel "Validators info" None]) in
  queryValidators L config up fuel = Some (fetchedValidators run, validatorsTrace run) /\
  fetchedSigningInfos run = fst (querySigningInfos L config up) /\
  fetchedSetLength run = fst (queryParams L up) /\
  served run = samplesOf (trace st) /\
  countedActive run = activeValidators st /\
  queriesOf (derivation run) = queriesOf (trace st).
Proof.
  unfold ValidatorsHandler.
  destruct (queryValidators L config up fuel) as [[validators vtr]|];
    [|discriminate].
  destruct (querySigningInfos L config up) as [signingInfos str].
  destruct (queryParams L up) as [validatorSetLength ptr].
  intros Hrun. injection Hrun as <-. cbn.
  rewrite !queriesOf_app, samplesOf_app. cbn. rewrite !app_nil_r. auto 10.
Qed.

(** On an error the page loop stops at once and hands back what it has. *)
Lemma validatorsLoop_stops_on_error (fuel : nat) (offset : Z)
      (validators : list Validator) (tr : list (Event L)) :
  Validators up (mkPage offset (ConfigLimit L config)) = Err ->
  validatorsLoop L config up (S fuel) offset validators tr =
  Some (ByReturn, validators,
        (tr ++ [EvQuery (QValidators (mkPage offset (ConfigLimit L config)))])
          ++ [logAt ErrorLevel "Could not get validators" None]).
Proof. intros Herr. cbn. now rewrite Herr. Qed.

(** After the [return] of the error branch the slice is left as
    collected: the call of [sort.Slice] is not reached. *)
Lemma queryValidators_after_error (fuel : nat) (validators : list Validator)
      (tr : list (Event L)) :
  validatorsLoop L config up fuel 0 []
                 [logAt DebugLevel "Started querying validators" None]
  = Some (ByReturn, validators, tr) ->
  queryValidators L config up fuel = Some (validators, tr).
Proof. intros Hloop. unfold queryValidators. now rewrite Hloop. Qed.

End HandlerFacts.

(** ** The page loop collects a finite list in full *)

Section Collecting.

Variable L : Lib.
Variable config : ServiceConfig L.
Variable up : Upstream.
Variable everything : list Validator.

Hypothesis limit_positive : 0 < ConfigLimit L config.
Hypothesis serves :
  forall p, Validators up p = Ok (pageOf everything p).

Lemma firstn_then_page {A : Type} (l : list A) (a n : nat) :
  firstn a l ++ firstn n (skipn a l) = firstn (a + n) l.
Proof.
  revert l. induction a as [|a IH]; intros l; [reflexivity|].
  destruct l as [|x l]; cbn.
  - now destruct n.
  - now rewrite IH.
Qed.

Lemma firstn_upto_length {A : Type} (k : nat) (l : list A) :
  firstn k l = firstn (Nat.min k (List.length l)) l.
Proof.
  destruct (Nat.le_ge_cases k (List.length l)) as [H0|H0].
  - now rewrite Nat.min_l.
  - rewrite Nat.min_r by exact H0. now rewrite firstn_all, firstn_all2.
Qed.

Lemma page_empty_iff (offset : nat) :
  pageOf everything (mkPage (Z.of_nat offset) (ConfigLimit L config)) = [] <->
  (List.length everything <= offset)%nat.
Proof.
  unfold pageOf. cbn [Offset Limit]. rewrite Nat2Z.id.
  destruct (Z.to_nat (ConfigLimit L config)) as [|n] eqn:En; [lia|].
  split.
  - intros Hnil. destruct (skipn offset everything) as [|x tl] eqn:Es;
      [|discriminate].
    pose proof (length_skipn offset everything) as Hlen.
    rewrite Es in Hlen. cbn in Hlen. lia.
  - intros Hle. now rewrite skipn_all2.
Qed.

Lemma validatorsLoop_collects (fuel : nat) :
  forall (offset : nat) (tr : list (Event L)),
    (List.length everything - offset < fuel)%nat ->
    (offset <= List.length everything)%nat ->
    exists tr',
      validatorsLoop L config up fuel (Z.of_nat offset) (firstn offset everything) tr
      = Some (ByBreak, everything, tr').
Proof.
  induction fuel as [|fuel IH]; intros offset tr Hfuel Hoff; [lia|].
  cbn [validatorsLoop]. rewrite serves.
  destruct (pageOf everything (mkPage (Z.of_nat offset) (ConfigLimit L config)))
    as [|x tl] eqn:Hpage.
  - apply page_empty_iff in Hpage.
    rewrite firstn_all2 by lia. eexists. reflexivity.
  - assert (Hlt : (offset < List.length everything)%nat).
    { destruct (Nat.lt_ge_cases offset (List.length everything)) as [H0|H0]; auto.
      apply page_empty_iff in H0. congruence. }
    rewrite <- Hpage. unfold pageOf. cbn [Offset Limit]. rewrite Nat2Z.id.
    set (n := Z.to_nat (ConfigLimit L config)).
    assert (Hn : (0 < n)%nat) by (subst n; lia).
    rewrite firstn_then_page.
    pose proof (length_firstn (offset + n) everything) as Hlen.
    rewrite Hlen.
    rewrite (firstn_upto_length (offset + n) everything).
    apply IH; lia.
Qed.

(** With one request more than there are validators, the goroutine ends
    at the empty page with every validator collected. *)
Lemma validatorsLoop_collects_everything (tr : list (Event L)) :
  exists tr',
    validatorsLoop L config up (S (List.length everything)) 0 [] tr
    = Some (ByBreak, everything, tr').
Proof.
  apply (validatorsLoop_collects (S (List.length everything)) 0 tr); lia.
Qed.

End Collecting.

(** ** Rank, active set and missed blocks of a request *)

Section Requests.

Variable L : Lib.
Variable config : ServiceConfig L.
Variable up : Upstream.

(** The ranks of a request are the positions (plus one) of the validators
    with a signing-info match; when every validator has one they are
    1, 2, ..., N. *)
Lemma ranks_of_a_request (fuel : nat) (run : ValidatorsRun L) :
  ValidatorsHandler L config up fuel = Some run ->
  ranksOf (served run) =
  ranksSet L up (fetchedSigningInfos run) 0 (fetchedValidators run) /\
  ((forall v, In v (fetchedValidators run) ->
              signingInfoMatch up (fetchedSigningInfos run) (joinKey L v) <> None) ->
   ranksOf (served run) = countingFrom 1 (List.length (fetchedValidators run))).
Proof.
  intros Hrun. apply ValidatorsHandler_run in Hrun. cbv zeta in Hrun.
  destruct Hrun as (_ & _ & _ & Hserved & _).
  rewrite Hserved, rangeValidators_ranks. cbn [trace samplesOf ranksOf app].
  split; [reflexivity|].
  intros Hall. now rewrite (ranksSet_all_matched L up _ _ Hall 0%nat).
Qed.



(** C6.  The missed-blocks gauge is set for a validator exactly when the
    validator is bonded and has a signing-info match, and it is set to
    the counter of the match: the first record of the bulk set for the
    validator's key or, when the bulk set has none, the record returned
    by the single lookup.  The loop issues that lookup once for each
    validator the bulk set has no record for, and nothing else. *)
Theorem missed_blocks_iff_bonded_and_matched (fuel : nat) (run : ValidatorsRun L) :
  ValidatorsHandler L config up fuel = Some run ->
  (forall (a m : string) (n : Z),
      In (MissedBlocks a m n) (served run) <->
      exists v si,
        In v (fetchedValidators run) /\ OperatorAddress v = a /\ Moniker v = m /\
        Status v = Bonded /\
        signingInfoMatch up (fetchedSigningInfos run) (joinKey L v) = Some si /\
        MissedBlocksCounter si = n) /\
  queriesOf (derivation run) =
  flat_map (fun v => queriesOf (lookupEvents L (fetchedSigningInfos run) v))
           (fetchedValidators run).
Proof.
  intros Hrun. apply ValidatorsHandler_run in Hrun. cbv zeta in Hrun.
  destruct Hrun as (_ & _ & _ & Hserved & _ & Hq).
  split.
  - intros a m n. rewrite Hserved, rangeValidators_missed.
    cbn [trace samplesOf In logAt]. tauto.
  - rewrite Hq, rangeValidators_queries. reflexivity.
Qed.

(** C7, as the code has it.  The signing infos are fetched with a single
    request for the page at offset 0 with the configured limit; the
    result is that page, or nothing when the request fails. *)
Theorem signing_infos_fetched_with_one_request :
  queriesOf (snd (querySigningInfos L config up)) =
  [QSigningInfos (mkPage 0 (ConfigLimit L config))] /\
  fst (querySigningInfos L config up) =
  match SigningInfos up (mkPage 0 (ConfigLimit L config)) with
  | Ok info => info
  | Err => []
  end.
Proof.
  unfold querySigningInfos.
  destruct (SigningInfos up (mkPage 0 (ConfigLimit L config))); split; reflexivity.
Qed.


(** C10.  When the [validator_address] parameter does not decode as a
    validator address, the delegator handler logs the error and returns:
    no gauge is registered, no query is issued, no gauge is set and
    nothing is written to the response. *)
Theorem delegator_invalid_address_returns_early (validatorAddress : string) :
  ValAddressFromBech32 L validatorAddress = None ->
  let run := DelegatorHandler L config up validatorAddress in
  registered run = [] /\
  response run = None /\
  queriesOf (delegatorTrace run) = [] /\
  samplesOf (delegatorTrace run) = [] /\
  delegatorTrace run =
  [logAt ErrorLevel "Could not get validator address" (Some validatorAddress)].
Proof.
  intros Hbad. unfold DelegatorHandler. rewrite Hbad. cbn. auto.
Qed.

End Requests.

(** ** Runs on concrete inputs *)

Import Example.

(** A run of C1: the scenario of the specification, sorted by insertion. *)
Lemma sort_puts_bonded_first_then_larger_shares_run :
  SliceContract (sort_Slice go validatorsLess) /\
  exists sorted tr',
    queryValidators go cfg scenario 4 = Some (sorted, tr') /\
    Permutation [v1000; v5000; v9999] sorted /\
    forall (i j : nat) (a b : Validator),
      nth_error sorted i = Some a -> nth_error sorted j = Some b ->
      (IsBonded a = true -> IsBonded b = false -> (i < j)%nat) /\
      ((i < j)%nat -> IsBonded a = IsBonded b ->
       DelegatorShares b <= DelegatorShares a).
Proof.
  split; [exact insertionSort_func_contract|].
  destruct (validatorsLoop_collects_everything
              go cfg scenario [v1000; v5000; v9999] eq_refl (fun p => eq_refl)
              [logAt DebugLevel "Started querying validators" None])
    as [tr Hloop].
  exact (sort_puts_bonded_first_then_larger_shares
           go cfg scenario insertionSort_func_contract 4 [v1000; v5000; v9999]
           tr Hloop).
Defined.

(** C2 fails on the code: [sort.Slice] may run the gap pass before the
    insertion sort, and then the seven validators come back with the two
    tied ones in the opposite order. *)
Lemma sort_Slice_reverses_a_tie :
  SliceContract (sort_Slice go118 validatorsLess) /\
  tied tieA tieB /\
  map OperatorAddress seven =
  ["valoperA"; "valoperB"; "valoperC"; "valoperD"; "valoperE"; "valoperF"; "valoperG"] /\
  option_map (fun r => map OperatorAddress (fst r))
             (queryValidators go118 (config go118 1) sevenService 8) =
  Some ["valoperG"; "valoperB"; "valoperA"; "valoperC"; "valoperD"; "valoperE";
        "valoperF"] /\
  positionOf "valoperA" seven = Some 0%nat /\
  positionOf "valoperB" seven = Some 1%nat /\
  positionOf "valoperA" (sort_Slice go118 validatorsLess seven) = Some 2%nat /\
  positionOf "valoperB" (sort_Slice go118 validatorsLess seven) = Some 1%nat.
Proof.
  split; [exact shellThenInsertion_contract|].
  split; [split; reflexivity|].
  repeat split; vm_compute; reflexivity.
Qed.

(** A run of the amended C2 on the same seven validators. *)
Lemma sort_keeps_tied_validators_together_run :
  ((1 <= 1)%nat /\ (1 <= 2)%nat /\
   nth_error (sort_Slice go118 validatorsLess seven) 1 = Some tieB /\
   nth_error (sort_Slice go118 validatorsLess seven) 2 = Some tieA /\
   tied tieB tieA) /\
  Permutation seven (sort_Slice go118 validatorsLess seven) /\
  tied tieB tieB /\ tied tieB tieA.
Proof.
  assert (H1 : nth_error (sort_Slice go118 validatorsLess seven) 1 = Some tieB)
    by (vm_compute; reflexivity).
  assert (H2 : nth_error (sort_Slice go118 validatorsLess seven) 2 = Some tieA)
    by (vm_compute; reflexivity).
  assert (Ht : tied tieB tieA) by (split; reflexivity).
  split; [repeat split; auto|].
  exact (sort_keeps_tied_validators_together
           go118 shellThenInsertion_contract seven 1 1 2 tieB tieB tieA
           (le_n 1) (le_S 1 1 (le_n 1)) H1 H1 H2 Ht).
Defined.

(** C3 fails on the code.  Three bonded validators, the second without any
    signing info: after the failed lookup the [continue] skips the rest of
    the iteration, so that validator gets no rank and the ranks of the
    request are 1 and 3. *)
Theorem rank_missing_after_failed_lookup :
  option_map (fun run => (map OperatorAddress (fetchedValidators run),
                          rankedOf (served run),
                          queriesOf (derivation run)))
             (ValidatorsHandler go cfg unknownSigner 4) =
  Some (["valoper5000"; "valoper3000"; "valoper1000"],
        [("valoper5000", 1); ("valoper1000", 3)],
        [QSigningInfo "valcons05"]).
Proof. vm_compute. reflexivity. Qed.

(** C8 fails on the code.  The first page holds an unbonded validator ahead
    of a bonded one and the request for the second page fails: the
    [return] of the error branch leaves the goroutine before [sort.Slice],
    the two validators stay in fetch order, and the unbonded one is ranked
    first.  Sorted, the bonded validator would lead. *)
Theorem partial_validators_left_unsorted :
  option_map (fun run => (map OperatorAddress (fetchedValidators run),
                          IsSorted validatorsLess (fetchedValidators run),
                          rankedOf (served run),
                          queriesOf (validatorsTrace run)))
             (ValidatorsHandler go cfg secondPageFails 4) =
  Some (["valoper9999"; "valoper1000"], false,
        [("valoper9999", 1); ("valoper1000", 2)],
        [QValidators (mkPage 0 2); QValidators (mkPage 2 2)]) /\
  map OperatorAddress (sort_Slice go validatorsLess [v9999; v1000]) =
  ["valoper1000"; "valoper9999"].
Proof. split; vm_compute; reflexivity. Qed.

(** C7 fails on the code.  The service holds three signing infos and the
    page limit is two: the handler asks once and keeps the first two, and
    the third is never fetched in bulk, while the three validators behind
    the same limit are fetched page by page. *)
Lemma signing_infos_beyond_first_page_not_fetched :
  SigningInfos manyInfos (mkPage 2 2) = Ok [infoOf v9999 3] /\
  fst (querySigningInfos go cfg manyInfos) = [infoOf v1000 1; infoOf v5000 2] /\
  queriesOf (snd (querySigningInfos go cfg manyInfos)) = [QSigningInfos (mkPage 0 2)] /\
  option_map (fun r => (List.length (fst r), queriesOf (snd r)))
             (queryValidators go cfg manyInfos 4) =
  Some (3%nat, [QValidators (mkPage 0 2); QValidators (mkPage 2 2);
                QValidators (mkPage 3 2)]).
Proof. repeat split; vm_compute; reflexivity. Qed.


(** The project of a run onto a value that can be computed. *)
Ltac run_gives f value :=
  match goal with
  | Hrun : ValidatorsHandler ?L ?c ?u ?fuel = _ |- _ =>
      let H := fresh "Hvalue" in
      assert (H : option_map f (ValidatorsHandler L c u fuel) = Some value)
        by (vm_compute; reflexivity);
      rewrite Hrun in H; cbn [option_map] in H;
      first [discriminate H | injection H as H]
  end.



(** A run of C6 on the scenario: the first bonded validator is matched by
    the single lookup, the second by the bulk set, and the unbonded one has
    a match and no missed-blocks value. *)
Lemma missed_blocks_iff_bonded_and_matched_run :
  exists run,
    ValidatorsHandler go cfg scenario 4 = Some run /\
    missedOf (served run) = [("valoper5000", 8); ("valoper1000", 3)] /\
    signingInfoMatch scenario (fetchedSigningInfos run) (joinKey go v9999)
    = Some (infoOf v9999 2) /\
    (forall (a m : string) (n : Z),
        In (MissedBlocks a m n) (served run) <->
        exists v si,
          In v (fetchedValidators run) /\ OperatorAddress v = a /\ Moniker v = m /\
          Status v = Bonded /\
          signingInfoMatch scenario (fetchedSigningInfos run) (joinKey go v) = Some si /\
          MissedBlocksCounter si = n) /\
    queriesOf (derivation run) =
    flat_map (fun v => queriesOf (lookupEvents go (fetchedSigningInfos run) v))
             (fetchedValidators run).
Proof.
  destruct (ValidatorsHandler go cfg scenario 4) as [run|] eqn:Hrun;
    [|run_gives (@fetchedSetLength go) 1].
  exists run.
  run_gives (fun r => missedOf (@served go r)) [("valoper5000", 8); ("valoper1000", 3)].
  rename Hvalue into Hmissed.
  run_gives (@fetchedSigningInfos go) [infoOf v1000 3].
  split; [reflexivity|]. split; [exact Hmissed|].
  split; [rewrite Hvalue; reflexivity|].
  exact (missed_blocks_iff_bonded_and_matched go cfg scenario 4 run Hrun).
Defined.


(** A run of C10: an account address where a validator address is
    expected. *)
Lemma delegator_invalid_address_returns_early_run :
  ValAddressFromBech32 go "cosmos1notavalidator" = None /\
  let run := DelegatorHandler go cfg scenario "cosmos1notavalidator" in
  registered run = [] /\
  response run = None /\
  queriesOf (delegatorTrace run) = [] /\
  samplesOf (delegatorTrace run) = [] /\
  delegatorTrace run =
  [logAt ErrorLevel "Could not get validator address" (Some "cosmos1notavalidator")].
Proof.
  split; [reflexivity|].
  exact (delegator_invalid_address_returns_early
           go cfg scenario "cosmos1notavalidator" eq_refl).
Defined.

(** ** The upgrade handler *)

Lemma wrap64_range (z : Z) : - 2 ^ 63 <= wrap64 z < 2 ^ 63.
Proof.
  unfold wrap64.
  pose proof (Z.mod_pos_bound (z + 2 ^ 63) (2 ^ 64) ltac:(lia)). lia.
Qed.

Lemma wrap64_small (z : Z) : - 2 ^ 63 <= z < 2 ^ 63 -> wrap64 z = z.
Proof.
  intros Hz. unfold wrap64. rewrite Z.mod_small by lia. lia.
Qed.

Section UpgradeFacts.

Variable C : ChainLib.
Variable CurrentPlan : Reply (option Plan).

(** X13.  A request to the upgrade endpoint always registers the one gauge
    and sets it at most once.  It is left unset exactly when the plan
    cannot be fetched, or when there is a plan and the chain status cannot
    be fetched. *)
Theorem upgrade_gauge_set_at_most_once :
  let run := UpgradeHandler C CurrentPlan in
  upgradeRegistered run = ["cosmos_upgrade_plan"] /\
  (List.length (upgradeResponse run) <= 1)%nat /\
  (upgradeResponse run = [] <->
   CurrentPlan = Err \/
   exists plan, CurrentPlan = Ok (Some plan) /\ NewChainStatus C = Err).
Proof.
  cbv zeta. unfold UpgradeHandler, GetUpgradeMetrics. cbn [upgradeRegistered upgradeResponse].
  split; [reflexivity|].
  destruct CurrentPlan as [|[plan|]].
  - cbn. split; [lia|]. split; auto.
  - destruct (NewChainStatus C) as [|cs].
    + cbn. split; [lia|]. split; [|reflexivity]. intros _. right. now exists plan.
    + destruct (wrap64 (PlanHeight plan - LatestBlockHeight C cs) <=? 0).
      * cbn. split; [lia|]. split; [discriminate|].
        intros [H0|(p & _ & H0)]; discriminate.
      * destruct (EstimateBlockTime C cs _) as [estimatedTime [|]]; cbn;
          (split; [lia|]); (split; [discriminate|]);
          intros [H0|(p & _ & H0)]; discriminate.
  - cbn. split; [lia|]. split; [discriminate|].
    intros [H0|(p & H0 & _)]; discriminate.
Qed.

(** X14.  Every value of the upgrade gauge is either the "None" sample with
    value 0 or belongs to the fetched plan: then the value is the [int64]
    difference between the plan height and the latest block height and is
    strictly positive, the info and name labels are the plan's, and the
    height label is the plan height in decimal.  So the gauge is never
    negative, and it is 0 only with the "None" labels. *)
Theorem upgrade_gauge_is_none_or_positive (s : UpgradeSample) :
  In s (upgradeResponse (UpgradeHandler C CurrentPlan)) ->
  s = noUpgrade \/
  exists plan cs,
    CurrentPlan = Ok (Some plan) /\ NewChainStatus C = Ok cs /\
    remaining s = wrap64 (PlanHeight plan - LatestBlockHeight C cs) /\
    0 < remaining s < 2 ^ 63 /\
    info s = PlanInfo plan /\ name s = PlanName plan /\
    height s = FormatInt (PlanHeight plan) /\
    estimated_time s =
    FormatLocalRFC1123 C (fst (EstimateBlockTime C cs (remaining s))).
Proof.
  unfold UpgradeHandler, GetUpgradeMetrics. cbn [upgradeResponse].
  destruct CurrentPlan as [|[plan|]].
  - cbn. tauto.
  - destruct (NewChainStatus C) as [|cs] eqn:Hcs.
    + cbn. tauto.
    + destruct (wrap64 (PlanHeight plan - LatestBlockHeight C cs) <=? 0) eqn:Hle.
      * cbn. intros [<-|[]]. now left.
      * apply Z.leb_gt in Hle.
        pose proof (wrap64_range (PlanHeight plan - LatestBlockHeight C cs)).
        destruct (EstimateBlockTime C cs _) as [estimatedTime failed] eqn:He.
        destruct failed; cbn; intros [<-|[]]; right; exists plan, cs; cbn;
          rewrite He; repeat split; auto; lia.
  - cbn. intros [<-|[]]. now left.
Qed.

(** X15.  With a plan height and a latest block height that are valid
    block heights (from 0 up, below 2^63), the subtraction does not wrap:
    when the latest height is below the plan height the gauge holds their
    difference under the plan's labels, and otherwise - the upgrade height
    is reached or passed - it holds the "None" sample. *)
Theorem upgrade_gauge_counts_remaining_blocks (plan : Plan) (cs : ChainStatus C) :
  CurrentPlan = Ok (Some plan) ->
  NewChainStatus C = Ok cs ->
  0 <= PlanHeight plan < 2 ^ 63 ->
  0 <= LatestBlockHeight C cs < 2 ^ 63 ->
  upgradeResponse (UpgradeHandler C CurrentPlan) =
  if LatestBlockHeight C cs <? PlanHeight plan
  then [mkUpgradeSample
          (PlanInfo plan) (PlanName plan) (FormatInt (PlanHeight plan))
          (FormatLocalRFC1123 C
             (fst (EstimateBlockTime C cs
                     (PlanHeight plan - LatestBlockHeight C cs))))
          (PlanHeight plan - LatestBlockHeight C cs)]
  else [noUpgrade].
Proof.
  intros Hplan Hcs Hh Hl.
  unfold UpgradeHandler, GetUpgradeMetrics. cbn [upgradeResponse].
  rewrite Hplan, Hcs, wrap64_small by lia.
  destruct (LatestBlockHeight C cs <? PlanHeight plan) eqn:Hlt.
  - apply Z.ltb_lt in Hlt.
    replace (PlanHeight plan - LatestBlockHeight C cs <=? 0) with false
      by (symmetry; apply Z.leb_gt; lia).
    destruct (EstimateBlockTime C cs _) as [estimatedTime [|]]; reflexivity.
  - apply Z.ltb_ge in Hlt.
    replace (PlanHeight plan - LatestBlockHeight C cs <=? 0) with true
      by (symmetry; apply Z.leb_le; lia).
    reflexivity.
Qed.


End UpgradeFacts.

(** ** Further properties of the validators handler *)

(** X1.  The [less] closure handed to [sort.Slice] is a strict weak order,
    as that function asks of it: no validator is less than itself, less is
    transitive, and so is being unordered either way (same bonded state and
    same shares). *)
Theorem validatorsLess_strict_weak_order :
  (forall a, validatorsLess a a = false) /\
  (forall a b c, validatorsLess a b = true -> validatorsLess b c = true ->
                 validatorsLess a c = true) /\
  (forall a b, validatorsLess a b = false -> validatorsLess b a = false ->
               tied a b) /\
  (forall a b c, tied a b -> tied b c -> tied a c) /\
  (forall a b, validatorsLess a b = true \/ validatorsLess b a = true \/ tied a b).
Proof.
  split; [|split; [|split; [|split]]].
  - intros a. apply validatorsLess_false_iff. split; auto. lia.
  - intros a b c. rewrite !validatorsLess_iff.
    destruct (IsBonded a), (IsBonded b), (IsBonded c);
      intuition (try discriminate; try lia).
  - intros a b. rewrite !validatorsLess_false_iff. unfold tied.
    destruct (IsBonded a), (IsBonded b);
      intuition (try discriminate; try lia).
  - unfold tied. intros a b c [H1 H2] [H3 H4]. split; congruence.
  - intros a b. rewrite !validatorsLess_iff. unfold tied.
    destruct (IsBonded a), (IsBonded b);
      destruct (Z.lt_trichotomy (DelegatorShares a) (DelegatorShares b))
      as [H0|[H0|H0]]; intuition.
Qed.

Section Pagination.

Variable L : Lib.
Variable config : ServiceConfig L.
Variable up : Upstream.

(** The offset of the request that follows the first [i] pages. *)
Let offsetAfter (acc : list Validator) (pages : list (list Validator)) (i : nat) : Z :=
  Z.of_nat (List.length (acc ++ List.concat (firstn i pages))).

Lemma validatorsLoop_pages (fuel : nat) :
  forall (acc : list Validator) (tr : list (Event L)) (exit : LoopExit)
         (vs : list Validator) (tr' : list (Event L)),
    validatorsLoop L config up fuel (Z.of_nat (List.length acc)) acc tr
    = Some (exit, vs, tr') ->
    exists pages,
      vs = acc ++ List.concat pages /\
      Forall (fun page => page <> []) pages /\
      (forall i, (i < List.length pages)%nat ->
                 Validators up (mkPage (offsetAfter acc pages i) (ConfigLimit L config))
                 = Ok (nth i pages [])) /\
      Validators up (mkPage (Z.of_nat (List.length vs)) (ConfigLimit L config))
      = match exit with ByBreak => Ok [] | ByReturn => Err end /\
      queriesOf tr' =
      queriesOf tr ++
      map (fun i => QValidators (mkPage (offsetAfter acc pages i) (ConfigLimit L config)))
          (seq 0 (S (List.length pages))).
Proof.
  subst offsetAfter.
  induction fuel as [|fuel IH]; intros acc tr exit vs tr' Hloop; [discriminate|].
  cbn [validatorsLoop] in Hloop.
  destruct (Validators up (mkPage (Z.of_nat (List.length acc)) (ConfigLimit L config)))
    as [|page] eqn:Hpage.
  - injection Hloop as <- <- <-. exists []. cbn. rewrite !app_nil_r.
    repeat split; auto; try lia.
    rewrite !queriesOf_app. cbn. now rewrite app_nil_r.
  - destruct page as [|x page].
    + injection Hloop as <- <- <-. exists []. cbn. rewrite !app_nil_r.
      repeat split; auto; try lia.
      rewrite !queriesOf_app. reflexivity.
    + apply IH in Hloop. destruct Hloop as (pages & Hvs & Hne & Hserved & Hlast & Hq).
      exists ((x :: page) :: pages).
      split; [cbn [List.concat]; now rewrite app_assoc|].
      split; [constructor; [discriminate|exact Hne]|].
      split.
      * intros [|i] Hi.
        -- cbn [firstn List.concat nth]. rewrite app_nil_r. exact Hpage.
        -- cbn [firstn List.concat nth]. rewrite app_assoc. apply Hserved.
           cbn in Hi. lia.
      * split; [exact Hlast|].
        rewrite Hq, queriesOf_app, <- app_assoc. f_equal.
        change (seq 0 (S (List.length ((x :: page) :: pages))))
          with (0%nat :: seq 1 (S (List.length pages))).
        rewrite <- (seq_shift (S (List.length pages)) 0), map_cons, map_map.
        cbn [firstn List.concat queriesOf app]. rewrite app_nil_r. f_equal.
        apply map_ext. intros i. cbn [firstn List.concat]. now rewrite <- app_assoc.
Qed.

(** X2.  What the page loop hands back is the pages it received, in order
    and one after the other, none dropped or repeated; every request
    carries the configured limit and, as offset, the number of validators
    collected before it; and the request after the last page is the one
    that came back empty (the loop breaks) or failed (the loop returns). *)
Theorem page_loop_keeps_what_it_received
        (fuel : nat) (tr : list (Event L)) (exit : LoopExit)
        (vs : list Validator) (tr' : list (Event L)) :
  validatorsLoop L config up fuel 0 [] tr = Some (exit, vs, tr') ->
  exists pages,
    vs = List.concat pages /\
    Forall (fun page => page <> []) pages /\
    (forall i, (i < List.length pages)%nat ->
               Validators up (mkPage (Z.of_nat (List.length (List.concat (firstn i pages))))
                                     (ConfigLimit L config))
               = Ok (nth i pages [])) /\
    Validators up (mkPage (Z.of_nat (List.length vs)) (ConfigLimit L config))
    = match exit with ByBreak => Ok [] | ByReturn => Err end /\
    queriesOf tr' =
    queriesOf tr ++
    map (fun i => QValidators (mkPage (Z.of_nat (List.length (List.concat (firstn i pages))))
                                      (ConfigLimit L config)))
        (seq 0 (S (List.length pages))).
Proof.
  intros Hloop. exact (validatorsLoop_pages fuel [] tr exit vs tr' Hloop).
Qed.

(** X3.  Against a service that holds a list of validators and serves it by
    offset and limit, with a positive limit, the goroutine fetches every
    validator exactly once and hands the whole list to [sort.Slice]; it
    needs no more requests than there are validators, plus one. *)
Theorem collector_fetches_every_validator (everything : list Validator) :
  0 < ConfigLimit L config ->
  (forall p, Validators up p = Ok (pageOf everything p)) ->
  exists tr,
    queryValidators L config up (S (List.length everything))
    = Some (sort_Slice L validatorsLess everything, tr) /\
    (List.length (queriesOf tr) <= S (List.length everything))%nat.
Proof.
  intros Hlimit Hserves.
  destruct (validatorsLoop_collects_everything
              L config up everything Hlimit Hserves
              [logAt DebugLevel "Started querying validators" None]) as [tr Hloop].
  unfold queryValidators. rewrite Hloop.
  eexists. split; [reflexivity|].
  destruct (validatorsLoop_pages _ [] _ _ _ _ Hloop)
    as (pages & Hvs & Hne & _ & _ & Hq).
  rewrite queriesOf_app, Hq. cbn [queriesOf logAt app]. rewrite app_nil_r.
  rewrite length_map, length_seq.
  assert (Hlen : (List.length pages <= List.length (List.concat pages))%nat).
  { clear -Hne. induction Hne as [|page pages Hp _ IH]; cbn; [lia|].
    rewrite length_app. destruct page; [congruence|cbn; lia]. }
  cbn [app] in Hvs. rewrite <- Hvs in Hlen. lia.
Qed.

(** X4.  When the first request for validators fails or comes back empty,
    the request is still answered: no gauge is set, the counter of active
    validators is 0, and the pass over the validators issues no query. *)
Theorem nothing_to_show_without_validators (fuel : nat) :
  SliceContract (sort_Slice L validatorsLess) ->
  Validators up (mkPage 0 (ConfigLimit L config)) = Err \/
  Validators up (mkPage 0 (ConfigLimit L config)) = Ok [] ->
  exists run,
    ValidatorsHandler L config up (S fuel) = Some run /\
    fetchedValidators run = [] /\
    served run = [] /\
    countedActive run = 0 /\
    queriesOf (derivation run) = [] /\
    queriesOf (validatorsTrace run) = [QValidators (mkPage 0 (ConfigLimit L config))].
Proof.
  intros contract Hfirst.
  assert (Hnil : sort_Slice L validatorsLess [] = [])
    by (apply Permutation_nil, (Slice_permutes _ contract)).
  unfold ValidatorsHandler, queryValidators. cbn [validatorsLoop].
  destruct (querySigningInfos L config up) as [sis str].
  destruct (queryParams L up) as [vsl ptr].
  destruct Hfirst as [-> | ->]; rewrite ?Hnil;
    (eexists; split; [reflexivity|]; cbn; auto 10).
Qed.

End Pagination.

Section PlainGauges.

Variable L : Lib.
Variable config : ServiceConfig L.
Variable up : Upstream.

Lemma pick_app {A : Type} (f : Sample L -> option A) (a b : list (Sample L)) :
  pick f (a ++ b) = pick f a ++ pick f b.
Proof.
  induction a as [|s a IH]; cbn; [reflexivity|].
  destruct (f s); cbn; now rewrite IH.
Qed.

Lemma pick_plainOnly_step {A : Type} (f : Sample L -> option A)
      (signingInfos : list ValidatorSigningInfo) (vsl : Z) (index : nat)
      (v : Validator) (count : Z) :
  plainOnly f ->
  pick f (samplesOf (stepEvents L config up signingInfos vsl index v count)) =
  pick f (samplesOf (plainEvents L config v)).
Proof.
  intros Hf. unfold stepEvents. rewrite !samplesOf_app, !pick_app.
  assert (Hd : samplesOf (deriveEvents L v) = []).
  { unfold deriveEvents, derivePubKey.
    destruct (GetConsAddr L v) as [pubKey failed].
    destruct (UnpackInterfaces L v), failed; reflexivity. }
  assert (Hl : samplesOf (lookupEvents L signingInfos v) = []).
  { unfold lookupEvents. destruct (find _ signingInfos); reflexivity. }
  rewrite Hd, Hl. cbn [pick app].
  rewrite <- (app_nil_r (pick f (samplesOf (plainEvents L config v)))) at 2.
  f_equal.
  destruct (signingInfoMatch up signingInfos (joinKey L v)) as [si|];
    [|reflexivity].
  unfold missedEvent, rankEvent, activeSampleFor.
  destruct (BondStatus_eqb (Status v) Bonded), (vsl =? 0); cbn;
    repeat (rewrite Hf by reflexivity); reflexivity.
Qed.

(** What a selector of plain gauges finds in the samples of the loop: the
    entries of each validator in turn, whatever happens to the validator
    afterwards. *)
Lemma rangeValidators_pick {A : Type} (f : Sample L -> option A)
      (signingInfos : list ValidatorSigningInfo) (vsl : Z) (vs : list Validator) :
  plainOnly f ->
  forall (index : nat) (st : LoopState L),
    pick f (samplesOf (trace (rangeValidators L config up signingInfos vsl index vs st)))
    = pick f (samplesOf (trace st)) ++
      flat_map (fun v => pick f (samplesOf (plainEvents L config v))) vs.
Proof.
  intros Hf. induction vs as [|v vs IH]; intros index st; cbn [rangeValidators flat_map].
  - now rewrite app_nil_r.
  - rewrite IH, validatorBody_step. cbn [trace].
    rewrite samplesOf_app, pick_app, <- app_assoc. f_equal. f_equal.
    now apply pick_plainOnly_step.
Qed.

Lemma flat_map_single {A B : Type} (g : A -> B) (l : list A) :
  flat_map (fun a => [g a]) l = map g l.
Proof. induction l as [|a l IH]; cbn; [reflexivity|]. now rewrite IH. Qed.

Lemma flat_map_nil_all {A B : Type} (g : A -> list B) (l : list A) :
  (forall a, In a l -> g a = []) -> flat_map g l = [].
Proof.
  induction l as [|a l IH]; intros Hall; cbn; [reflexivity|].
  rewrite (Hall a) by now left. apply IH. intros b Hb. apply Hall. now right.
Qed.

Ltac by_parses v :=
  unfold plainEvents, setPlainGauges, setScaled, scaledEntry;
  destruct (ParseFloat L (Dec_String L (CommissionRate v)));
  destruct (ParseFloat L (Int_String L (Tokens v)));
  destruct (ParseFloat L (Dec_String L (DelegatorShares v)));
  destruct (ParseFloat L (Int_String L (MinSelfDelegation v)));
  reflexivity.


(** X6.  The commission and the three amount gauges are set per validator
    and per field: a field whose printed value parses as a float sets its
    gauge - the commission to the parsed rate, the tokens, delegator shares
    and minimum self delegation to the parsed value divided by the
    configured coefficient, under the configured denom - and a field that
    does not parse leaves only its own gauge unset. *)
Theorem amounts_scaled_field_by_field (fuel : nat) (run : ValidatorsRun L) :
  ValidatorsHandler L config up fuel = Some run ->
  pick commissionEntry (served run) =
  flat_map (fun v => match ParseFloat L (Dec_String L (CommissionRate v)) with
                     | Some rate => [(OperatorAddress v, rate)]
                     | None => []
                     end) (fetchedValidators run) /\
  pick tokensEntry (served run) =
  flat_map (fun v => scaledEntry L config (OperatorAddress v)
                                 (Int_String L (Tokens v)))
           (fetchedValidators run) /\
  pick sharesEntry (served run) =
  flat_map (fun v => scaledEntry L config (OperatorAddress v)
                                 (Dec_String L (DelegatorShares v)))
           (fetchedValidators run) /\
  pick minSelfEntry (served run) =
  flat_map (fun v => scaledEntry L config (OperatorAddress v)
                                 (Int_String L (MinSelfDelegation v)))
           (fetchedValidators run).
Proof.
  intros Hrun. apply ValidatorsHandler_run in Hrun. cbv zeta in Hrun.
  destruct Hrun as (_ & _ & _ & Hserved & _).
  rewrite Hserved.
  rewrite !rangeValidators_pick by (intros []; cbn; congruence).
  cbn [trace samplesOf logAt pick app].
  repeat split; apply flat_map_ext; intros v; by_parses v.
Qed.

End PlainGauges.

(** ** Ranks *)

Section Ranks.

Variable L : Lib.
Variable config : ServiceConfig L.
Variable up : Upstream.
Variable signingInfos : list ValidatorSigningInfo.

Lemma ranksSet_bounds (vs : list Validator) :
  forall index,
    Forall (fun r => Z.of_nat index + 1 <= r <= Z.of_nat index + Z.of_nat (List.length vs))
           (ranksSet L up signingInfos index vs).
Proof.
  induction vs as [|v vs IH]; intros index; cbn [ranksSet]; [constructor|].
  specialize (IH (S index)).
  assert (Htl : Forall (fun r => Z.of_nat index + 1 <= r
                                 <= Z.of_nat index + Z.of_nat (List.length (v :: vs)))
                       (ranksSet L up signingInfos (S index) vs)).
  { eapply Forall_impl; [|exact IH]. cbn [List.length]. intros r Hr. lia. }
  destruct (signingInfoMatch up signingInfos (joinKey L v)); [|exact Htl].
  constructor; [cbn [List.length]; lia|exact Htl].
Qed.

Lemma ranksSet_increasing (vs : list Validator) :
  forall index, StronglySorted Z.lt (ranksSet L up signingInfos index vs).
Proof.
  induction vs as [|v vs IH]; intros index; cbn [ranksSet]; [constructor|].
  destruct (signingInfoMatch up signingInfos (joinKey L v)); [|apply IH].
  constructor; [apply IH|].
  eapply Forall_impl; [|apply (ranksSet_bounds vs (S index))].
  intros r Hr. cbn beta in Hr. lia.
Qed.

Lemma ranksSet_length (vs : list Validator) :
  forall index,
    List.length (ranksSet L up signingInfos index vs) =
    List.length (reached L up signingInfos vs).
Proof.
  induction vs as [|v vs IH]; intros index; cbn [ranksSet reached filter];
    [reflexivity|].
  fold (reached L up signingInfos vs).
  destruct (signingInfoMatch up signingInfos (joinKey L v)); cbn [List.length];
    now rewrite IH.
Qed.

(** Who holds which rank. *)
Lemma rangeValidators_ranked (vsl : Z) (vs : list Validator) (a : string) (r : Z) :
  forall (index : nat) (st : LoopState L),
    In (a, r) (rankedOf (samplesOf (trace (rangeValidators L config up signingInfos
                                                           vsl index vs st)))) <->
    In (a, r) (rankedOf (samplesOf (trace st))) \/
    exists k v,
      nth_error vs k = Some v /\ OperatorAddress v = a /\
      r = Z.of_nat (index + k) + 1 /\
      signingInfoMatch up signingInfos (joinKey L v) <> None.
Proof.
  assert (Happ : forall x y : list (Sample L),
             rankedOf (x ++ y) = rankedOf x ++ rankedOf y).
  { induction x as [|s x IH]; intros y; cbn; [reflexivity|].
    destruct s; cbn; now rewrite ?IH. }
  assert (Hplain : forall ss : list (Sample L),
             forallb isPlainSample ss = true -> rankedOf ss = []).
  { induction ss as [|s ss IH]; cbn; [reflexivity|].
    intros Hp. apply andb_prop in Hp. destruct Hp as [Hs Hp].
    destruct s; try discriminate; now apply IH. }
  induction vs as [|v vs IH]; intros index st; cbn [rangeValidators].
  - split; [auto|]. intros [H0|(k & v & Hk & _)]; [exact H0|].
    destruct k; discriminate.
  - rewrite IH, validatorBody_step. cbn [trace].
    rewrite samplesOf_app, Happ, in_app_iff.
    destruct (stepEvents_samples L config up signingInfos vsl index v
                                 (activeValidators st)) as (plain & Hp & Heq).
    rewrite Heq, Happ, (Hplain plain Hp). cbn [app].
    destruct (signingInfoMatch up signingInfos (joinKey L v)) as [si|] eqn:Hm.
    + rewrite Happ.
      assert (Hmiss : rankedOf (samplesOf [@missedEvent L v si]) = []).
      { unfold missedEvent. destruct (BondStatus_eqb (Status v) Bonded); reflexivity. }
      rewrite Hmiss. cbn [app].
      assert (Hone : rankedOf
                       (Rank (OperatorAddress v) (Moniker v) (Z.of_nat index + 1) ::
                        (if vsl =? 0 then []
                         else [activeSampleFor L v
                                 (activeValue vsl (activeValidators st) v)]))
                     = [(OperatorAddress v, Z.of_nat index + 1)]).
      { destruct (vsl =? 0); reflexivity. }
      rewrite Hone. cbn [In].
      split.
      * intros [[H0|[H0|[]]]|(k & w & Hk & Ha & Hr & Hw)]; auto.
        -- injection H0 as <- <-. right. exists 0%nat, v. cbn.
           repeat split; auto; try lia. congruence.
        -- right. exists (S k), w. cbn. repeat split; auto. lia.
      * intros [H0|(k & w & Hk & Ha & Hr & Hw)]; auto.
        destruct k as [|k]; cbn in Hk.
        -- injection Hk as ->. left. right. left. subst. f_equal. f_equal. lia.
        -- right. exists k, w. repeat split; auto. lia.
    + cbn [rankedOf In]. split.
      * intros [[H0|[]]|(k & w & Hk & Ha & Hr & Hw)]; auto.
        right. exists (S k), w. cbn. repeat split; auto. lia.
      * intros [H0|(k & w & Hk & Ha & Hr & Hw)]; auto.
        destruct k as [|k]; cbn in Hk.
        -- injection Hk as ->. congruence.
        -- right. exists k, w. repeat split; auto. lia.
Qed.

End Ranks.

Section RanksOfARequest.

Variable L : Lib.
Variable config : ServiceConfig L.
Variable up : Upstream.

(** X7.  A validator holds rank [r] exactly when it stands at position
    [r - 1] of the slice the loop runs over and has a signing-info match.
    So the ranks of a request are strictly increasing in the order they
    are set, no rank is given twice, each lies between 1 and the number of
    validators, and there are as many as validators with a match. *)
Theorem rank_is_position_plus_one (fuel : nat) (run : ValidatorsRun L) :
  ValidatorsHandler L config up fuel = Some run ->
  (forall a r,
      In (a, r) (rankedOf (served run)) <->
      exists k v,
        nth_error (fetchedValidators run) k = Some v /\ OperatorAddress v = a /\
        r = Z.of_nat k + 1 /\
        signingInfoMatch up (fetchedSigningInfos run) (joinKey L v) <> None) /\
  StronglySorted Z.lt (ranksOf (served run)) /\
  Forall (fun r => 1 <= r <= Z.of_nat (List.length (fetchedValidators run)))
         (ranksOf (served run)) /\
  List.length (ranksOf (served run)) =
  List.length (reached L up (fetchedSigningInfos run) (fetchedValidators run)).
Proof.
  intros Hrun.
  destruct (ranks_of_a_request L config up fuel run Hrun) as [Hranks _].
  apply ValidatorsHandler_run in Hrun. cbv zeta in Hrun.
  destruct Hrun as (_ & _ & _ & Hserved & _).
  split; [|split; [|split]].
  - intros a r. rewrite Hserved, rangeValidators_ranked.
    cbn [trace samplesOf logAt rankedOf In Nat.add]. tauto.
  - rewrite Hranks. apply ranksSet_increasing.
  - rewrite Hranks. apply (ranksSet_bounds L up _ _ 0%nat).
  - rewrite Hranks. apply ranksSet_length.
Qed.

End RanksOfARequest.

(** ** Who is active *)

Lemma notJailed_cons (v : Validator) (vs : list Validator) :
  notJailed (v :: vs) = (if Jailed v then 0 else 1) + notJailed vs.
Proof.
  unfold notJailed. cbn [filter]. destruct (Jailed v); cbn [negb List.length]; lia.
Qed.

Lemma notJailed_nonneg (vs : list Validator) : 0 <= notJailed vs.
Proof. unfold notJailed. lia. Qed.

(** The value handed to the validator at position [k]: 1 exactly when it
    is not jailed and fewer than [vsl] validators before it are counted. *)
Lemma assign_closed_form (vsl : Z) (vs : list Validator) :
  forall count k v,
    0 <= count <= vsl ->
    nth_error vs k = Some v ->
    nth_error (assign vsl count vs) k =
    Some (if Jailed v then 0
          else if count + notJailed (firstn k vs) <? vsl then 1 else 0).
Proof.
  induction vs as [|w vs IH]; intros count k v Hc Hk.
  - destruct k; discriminate.
  - destruct k as [|k]; cbn [nth_error assign firstn] in *.
    + injection Hk as ->. unfold activeValue, notJailed. cbn.
      rewrite Z.add_0_r.
      destruct (Jailed v); [reflexivity|].
      destruct (count =? vsl) eqn:E.
      * apply Z.eqb_eq in E. subst.
        now replace (vsl <? vsl) with false by (symmetry; apply Z.ltb_ge; lia).
      * apply Z.eqb_neq in E.
        now replace (count <? vsl) with true by (symmetry; apply Z.ltb_lt; lia).
    + rewrite notJailed_cons.
      pose proof (notJailed_nonneg (firstn k vs)) as Hnn.
      unfold activeValue at 1.
      destruct (Jailed w).
      * rewrite (IH (count + 0) k v) by (auto; lia).
        now rewrite Z.add_0_r, Z.add_0_l.
      * destruct (count =? vsl) eqn:E.
        -- apply Z.eqb_eq in E. subst count.
           rewrite (IH (vsl + 0) k v) by (auto; lia).
           replace (vsl + 0 + notJailed (firstn k vs) <? vsl) with false
             by (symmetry; apply Z.ltb_ge; lia).
           now replace (vsl + (1 + notJailed (firstn k vs)) <? vsl) with false
             by (symmetry; apply Z.ltb_ge; lia).
        -- apply Z.eqb_neq in E.
           rewrite (IH (count + 1) k v) by (auto; lia).
           now rewrite Z.add_assoc.
Qed.

(** As many ones as there is room for. *)
Lemma assign_count (vsl : Z) (vs : list Validator) :
  forall count,
    0 <= count <= vsl ->
    count + countOnes (assign vsl count vs) = Z.min vsl (count + notJailed vs).
Proof.
  induction vs as [|w vs IH]; intros count Hc; cbn [assign].
  - unfold countOnes, notJailed. cbn. lia.
  - rewrite countOnes_cons, notJailed_cons.
    pose proof (notJailed_nonneg vs) as Hnn.
    pose proof (IH (count + activeValue vsl count w)) as IH'.
    unfold activeValue in *.
    destruct (Jailed w); [|destruct (count =? vsl) eqn:E];
      cbn [Z.eqb Pos.eqb] in *; rewrite ?Z.add_0_r in *;
      try apply Z.eqb_neq in E; try apply Z.eqb_eq in E; lia.
Qed.

Section ActiveSet.

Variable L : Lib.
Variable config : ServiceConfig L.
Variable up : Upstream.

(** X8.  With max-validators above zero, the validator at position [k]
    among those that reach the active gauge is active exactly when it is
    not jailed and fewer than max-validators validators before it (among
    those same validators) are not jailed: the active validators are the
    first max-validators eligible ones in slice order, and once the
    capacity is used up nobody after is active. *)
Theorem active_are_the_first_eligible (fuel : nat) (run : ValidatorsRun L)
        (k : nat) (v : Validator) :
  ValidatorsHandler L config up fuel = Some run ->
  0 < fetchedSetLength run ->
  nth_error (reached L up (fetchedSigningInfos run) (fetchedValidators run)) k
  = Some v ->
  nth_error (activeFlags (served run)) k =
  Some (if Jailed v then 0
        else if notJailed (firstn k (reached L up (fetchedSigningInfos run)
                                             (fetchedValidators run)))
                <? fetchedSetLength run
             then 1 else 0).
Proof.
  intros Hrun Hpos Hk. apply ValidatorsHandler_run in Hrun. cbv zeta in Hrun.
  destruct Hrun as (_ & _ & _ & Hserved & _).
  assert (Hvsl : (fetchedSetLength run =? 0) = false) by (apply Z.eqb_neq; lia).
  destruct (rangeValidators_active L config up (fetchedSigningInfos run)
              (fetchedSetLength run) (fetchedValidators run) Hvsl 0%nat
              (mkState 0 [logAt InfoLevel "Validators info" None]))
    as (_ & Hflags & _).
  cbn [trace activeValidators samplesOf activeFlags app logAt] in Hflags.
  rewrite <- Hserved in Hflags. rewrite Hflags.
  rewrite (assign_closed_form _ _ 0 k v) by (auto; lia).
  now rewrite Z.add_0_l.
Qed.

(** X9.  With max-validators above zero, the number of active validators -
    the final counter, logged as "Active validators" - is the smaller of
    max-validators and the number of validators that reach the active
    gauge and are not jailed. *)
Theorem active_count_is_the_smaller (fuel : nat) (run : ValidatorsRun L) :
  ValidatorsHandler L config up fuel = Some run ->
  0 < fetchedSetLength run ->
  countedActive run =
  Z.min (fetchedSetLength run)
        (notJailed (reached L up (fetchedSigningInfos run) (fetchedValidators run))) /\
  countOnes (activeFlags (served run)) = countedActive run.
Proof.
  intros Hrun Hpos. apply ValidatorsHandler_run in Hrun. cbv zeta in Hrun.
  destruct Hrun as (_ & _ & _ & Hserved & Hcount & _).
  assert (Hvsl : (fetchedSetLength run =? 0) = false) by (apply Z.eqb_neq; lia).
  destruct (rangeValidators_active L config up (fetchedSigningInfos run)
              (fetchedSetLength run) (fetchedValidators run) Hvsl 0%nat
              (mkState 0 [logAt InfoLevel "Validators info" None]))
    as (_ & Hflags & Hcounter).
  cbn [trace activeValidators samplesOf activeFlags app logAt] in Hflags, Hcounter.
  rewrite <- Hserved in Hflags. rewrite <- Hcount in Hcounter.
  rewrite Hflags, Hcounter.
  pose proof (assign_count (fetchedSetLength run)
                (reached L up (fetchedSigningInfos run) (fetchedValidators run)) 0).
  split; lia.
Qed.

(** X10.  When the bulk request for signing infos fails, the pass over the
    validators falls back to the single lookup for every validator: one
    lookup each, in slice order, keyed by the validator's consensus
    address. *)
Theorem bulk_failure_costs_one_lookup_each (fuel : nat) (run : ValidatorsRun L) :
  ValidatorsHandler L config up fuel = Some run ->
  SigningInfos up (mkPage 0 (ConfigLimit L config)) = Err ->
  fetchedSigningInfos run = [] /\
  queriesOf (derivation run) =
  map (fun v => QSigningInfo (joinKey L v)) (fetchedValidators run).
Proof.
  intros Hrun Herr. apply ValidatorsHandler_run in Hrun. cbv zeta in Hrun.
  destruct Hrun as (_ & Hsis & _ & _ & _ & Hq).
  assert (Hnil : fetchedSigningInfos run = []).
  { rewrite Hsis. unfold querySigningInfos. now rewrite Herr. }
  split; [exact Hnil|].
  rewrite Hq, rangeValidators_queries, Hnil.
  cbn [trace queriesOf logAt app].
  rewrite <- flat_map_single. apply flat_map_ext. intros v. reflexivity.
Qed.

(** X11.  When the bulk signing infos hold a record for the consensus
    address of every fetched validator, the pass over the validators
    issues no query at all, every validator reaches the rank and active
    gauges, and the ranks are 1, 2, ..., N in slice order. *)
Theorem bulk_cover_needs_no_lookup (fuel : nat) (run : ValidatorsRun L) :
  ValidatorsHandler L config up fuel = Some run ->
  (forall v, In v (fetchedValidators run) ->
             exists si, In si (fetchedSigningInfos run) /\ Address si = joinKey L v) ->
  queriesOf (derivation run) = [] /\
  reached L up (fetchedSigningInfos run) (fetchedValidators run)
  = fetchedValidators run /\
  ranksOf (served run) = countingFrom 1 (List.length (fetchedValidators run)).
Proof.
  intros Hrun Hcover.
  assert (Hfind : forall v, In v (fetchedValidators run) ->
                            exists si,
                              find (fun si => String.eqb (joinKey L v) (Address si))
                                   (fetchedSigningInfos run) = Some si).
  { intros v Hv. destruct (Hcover v Hv) as (si & Hin & Ha).
    destruct (find (fun si => String.eqb (joinKey L v) (Address si))
                   (fetchedSigningInfos run)) as [si'|] eqn:Hf; [now exists si'|].
    exfalso. apply (find_none _ _ Hf) in Hin. rewrite Ha, String.eqb_refl in Hin.
    discriminate. }
  assert (Hmatch : forall v, In v (fetchedValidators run) ->
                             signingInfoMatch up (fetchedSigningInfos run) (joinKey L v)
                             <> None).
  { intros v Hv. destruct (Hfind v Hv) as (si & Hf).
    unfold signingInfoMatch. rewrite Hf. discriminate. }
  destruct (ranks_of_a_request L config up fuel run Hrun) as [_ Hranks].
  apply ValidatorsHandler_run in Hrun. cbv zeta in Hrun.
  destruct Hrun as (_ & _ & _ & _ & _ & Hq).
  split; [|split; [|exact (Hranks Hmatch)]].
  - rewrite Hq, rangeValidators_queries. cbn [trace queriesOf logAt app].
    apply flat_map_nil_all. intros v Hv. destruct (Hfind v Hv) as (si & Hf).
    unfold lookupEvents. now rewrite Hf.
  - unfold reached. apply forallb_filter_id. rewrite forallb_forall.
    intros v Hv. specialize (Hmatch v Hv).
    destruct (signingInfoMatch up (fetchedSigningInfos run) (joinKey L v));
      [reflexivity|congruence].
Qed.

End ActiveSet.

(** ** The pubkey label *)

Lemma hex_of_byte_reads_back (b : byte) :
  exists h l,
    hexValue (Hex.upperChar (Hex.digit (Byte.to_N b / 16))) = Some h /\
    hexValue (Hex.upperChar (Hex.digit (Byte.to_N b mod 16))) = Some l /\
    Byte.of_N (16 * h + l) = Some b.
Proof.
  destruct b; eexists; eexists; repeat split; vm_compute; reflexivity.
Qed.

Lemma upper_hex_reads_back (bs : list byte) :
  decodeUpperHex (Hex.ToUpper (Hex.EncodeToString bs)) = Some bs /\
  String.length (Hex.ToUpper (Hex.EncodeToString bs)) = (2 * List.length bs)%nat.
Proof.
  induction bs as [|b bs [IH1 IH2]]; [split; reflexivity|].
  cbn [Hex.EncodeToString Hex.ToUpper decodeUpperHex String.length List.length].
  destruct (hex_of_byte_reads_back b) as (h & l & -> & -> & Hb).
  rewrite IH1, Hb, IH2. split; [reflexivity|lia].
Qed.

(** X12.  With max-validators not 0 the active gauge is set exactly once
    per call, and its pubkey label is the consensus address in upper-case
    hexadecimal, two digits to the byte: the address can be read back from
    the label, so different addresses get different labels. *)
Theorem pubkey_label_reads_back (L : Lib) (validatorSetLength : Z) (v : Validator)
        (pubKey : list byte) (st : LoopState L) :
  validatorSetLength <> 0 ->
  exists label active,
    trace (setActive L validatorSetLength v pubKey st) =
    trace st ++ [EvSet (IsActive (OperatorAddress v) label (Moniker v) active)] /\
    decodeUpperHex label = Some pubKey /\
    String.length label = (2 * List.length pubKey)%nat.
Proof.
  intros Hne. apply Z.eqb_neq in Hne. unfold setActive. rewrite Hne. cbn [negb].
  eexists. eexists. split; [reflexivity|]. apply upper_hex_reads_back.
Qed.

(** ** The delegator handler with a valid address *)

Lemma pageOf_first_length {A : Type} (everything : list A) (limit : Z) :
  0 <= limit ->
  Z.of_nat (List.length (pageOf everything (mkPage 0 limit))) =
  Z.min limit (Z.of_nat (List.length everything)).
Proof.
  intros Hl. unfold pageOf. cbn [Offset Limit Z.to_nat skipn].
  rewrite length_firstn. lia.
Qed.

Section Delegators.

Variable L : Lib.
Variable config : ServiceConfig L.
Variable up : Upstream.

(** X17.  With a valid validator address the delegator handler registers
    its gauge, issues exactly one query - for the canonical form of the
    address, at offset 0 with the configured limit - and always writes the
    response.  The response holds one sample, labelled with the address as
    it was given and set to the number of delegations returned, unless the
    query fails: then it holds none. *)
Theorem delegator_counts_the_returned_delegations
        (validatorAddress : string) (valAddress : list byte) :
  ValAddressFromBech32 L validatorAddress = Some valAddress ->
  let run := DelegatorHandler L config up validatorAddress in
  let request := mkPage 0 (ConfigLimit L config) in
  registered run = ["cosmos_validator_delegator_total"] /\
  queriesOf (delegatorTrace run) =
  [QValidatorDelegations (ValAddress_String L valAddress) request] /\
  exists samples,
    response run = Some samples /\
    samplesOf (delegatorTrace run) = samples /\
    (samples = [] <->
     ValidatorDelegations up (ValAddress_String L valAddress) request = Err) /\
    (forall DelegationResponses,
        ValidatorDelegations up (ValAddress_String L valAddress) request
        = Ok DelegationResponses ->
        samples = [DelegatorTotal validatorAddress
                                  (Z.of_nat (List.length DelegationResponses))]).
Proof.
  intros Hok. cbv zeta. unfold DelegatorHandler. rewrite Hok.
  cbn [registered delegatorTrace response].
  destruct (ValidatorDelegations up (ValAddress_String L valAddress)
                                 (mkPage 0 (ConfigLimit L config))) as [|ds].
  - split; [reflexivity|]. split; [reflexivity|].
    exists []. repeat split; auto. intros ds Hds. discriminate.
  - split; [reflexivity|]. split; [reflexivity|].
    eexists. split; [reflexivity|]. split; [reflexivity|].
    split; [split; discriminate|].
    intros ds' Hds. injection Hds as <-. reflexivity.
Qed.

(** X18.  The delegator total saturates at the page limit: against a
    service that answers the one query with the first page of a
    validator's delegations, the gauge shows the number of delegations
    only up to the configured limit, and the limit itself beyond. *)
Theorem delegator_total_capped_by_limit
        (validatorAddress : string) (valAddress : list byte)
        (delegations : list DelegationResponse) :
  ValAddressFromBech32 L validatorAddress = Some valAddress ->
  0 <= ConfigLimit L config ->
  ValidatorDelegations up (ValAddress_String L valAddress)
                       (mkPage 0 (ConfigLimit L config))
  = Ok (pageOf delegations (mkPage 0 (ConfigLimit L config))) ->
  response (DelegatorHandler L config up validatorAddress) =
  Some [DelegatorTotal validatorAddress
                       (Z.min (ConfigLimit L config)
                              (Z.of_nat (List.length delegations)))].
Proof.
  intros Hok Hlimit Hpage. unfold DelegatorHandler. rewrite Hok, Hpage.
  cbn [response]. rewrite samplesOf_app. cbn [samplesOf logAt app].
  now rewrite pageOf_first_length.
Qed.

End Delegators.

(** ** The height label of the upgrade gauge *)

Lemma FormatInt_reads_back (n : Z) : readDecimal (FormatInt n) = Some n.
Proof.
  unfold readDecimal, FormatInt.
  rewrite NilZero.isi.
  - cbn [option_map]. now rewrite DecimalZ.of_to.
  - destruct n; cbn; try discriminate.
    intros H0. injection H0 as H0. now apply Unsigned.to_uint_nonnil in H0.
  - destruct n; cbn; try discriminate.
    intros H0. injection H0 as H0. now apply Unsigned.to_uint_nonnil in H0.
Qed.

(** X19.  Whenever the upgrade gauge is set for a plan (its value is not
    0), the height label is the plan height in decimal and reads back as
    that height, also for a height beyond what a [float64] holds exactly. *)
Theorem upgrade_height_label_reads_back (C : ChainLib) (plan : Plan)
        (s : UpgradeSample) :
  In s (upgradeResponse (UpgradeHandler C (Ok (Some plan)))) ->
  remaining s <> 0 ->
  height s = FormatInt (PlanHeight plan) /\
  readDecimal (height s) = Some (PlanHeight plan).
Proof.
  unfold UpgradeHandler, GetUpgradeMetrics. cbn [upgradeResponse].
  destruct (NewChainStatus C) as [|cs]; [cbn; tauto|].
  destruct (wrap64 (PlanHeight plan - LatestBlockHeight C cs) <=? 0).
  - cbn. intros [<-|[]] Hne. now cbn in Hne.
  - destruct (EstimateBlockTime C cs _) as [estimatedTime [|]]; cbn;
      intros [<-|[]] _; cbn; (split; [reflexivity|apply FormatInt_reads_back]).
Qed.

(** ** Runs of the further properties *)

Import MoreExamples UpgradeExample.

(** A run of X2 and of X3 on the scenario: two pages and the empty one. *)
Lemma page_loop_keeps_what_it_received_run :
  exists tr',
    validatorsLoop go cfg scenario 4 0 [] [] = Some (ByBreak, [v1000; v5000; v9999], tr') /\
    exists pages,
      [v1000; v5000; v9999] = List.concat pages /\
      Forall (fun page => page <> []) pages /\
      (forall i, (i < List.length pages)%nat ->
                 Validators scenario
                            (mkPage (Z.of_nat (List.length (List.concat (firstn i pages))))
                                    (ConfigLimit go cfg))
                 = Ok (nth i pages [])) /\
      Validators scenario (mkPage (Z.of_nat (List.length [v1000; v5000; v9999]))
                                  (ConfigLimit go cfg))
      = Ok [] /\
      queriesOf tr' =
      @queriesOf go [] ++
      map (fun i => QValidators
                      (mkPage (Z.of_nat (List.length (List.concat (firstn i pages))))
                              (ConfigLimit go cfg)))
          (seq 0 (S (List.length pages))).
Proof.
  destruct (validatorsLoop_collects_everything
              go cfg scenario [v1000; v5000; v9999] eq_refl (fun p => eq_refl) [])
    as [tr Hloop].
  exists tr. split; [exact Hloop|].
  exact (page_loop_keeps_what_it_received
           go cfg scenario 4 [] ByBreak [v1000; v5000; v9999] tr Hloop).
Defined.

Lemma collector_fetches_every_validator_run :
  0 < ConfigLimit go cfg /\
  (forall p, Validators scenario p = Ok (pageOf [v1000; v5000; v9999] p)) /\
  exists tr,
    queryValidators go cfg scenario 4
    = Some (sort_Slice go validatorsLess [v1000; v5000; v9999], tr) /\
    (List.length (queriesOf tr) <= 4)%nat.
Proof.
  split; [reflexivity|]. split; [intros p; reflexivity|].
  exact (collector_fetches_every_validator
           go cfg scenario [v1000; v5000; v9999] eq_refl (fun p => eq_refl)).
Defined.

(** A run of X4: the first request for validators fails. *)
Lemma nothing_to_show_without_validators_run :
  SliceContract (sort_Slice go validatorsLess) /\
  Validators validatorsDown (mkPage 0 (ConfigLimit go cfg)) = Err /\
  exists run,
    ValidatorsHandler go cfg validatorsDown 1 = Some run /\
    fetchedValidators run = [] /\
    served run = [] /\
    countedActive run = 0 /\
    queriesOf (derivation run) = [] /\
    queriesOf (validatorsTrace run) = [QValidators (mkPage 0 (ConfigLimit go cfg))].
Proof.
  split; [exact insertionSort_func_contract|]. split; [reflexivity|].
  exact (nothing_to_show_without_validators
           go cfg validatorsDown 0 insertionSort_func_contract (or_introl eq_refl)).
Defined.


Lemma amounts_scaled_field_by_field_run :
  exists run,
    ValidatorsHandler go cfg scenario 4 = Some run /\
    pick commissionEntry (served run) =
    flat_map (fun v => match ParseFloat go (Dec_String go (CommissionRate v)) with
                       | Some rate => [(OperatorAddress v, rate)]
                       | None => []
                       end) (fetchedValidators run) /\
    pick tokensEntry (served run) =
    flat_map (fun v => scaledEntry go cfg (OperatorAddress v)
                                   (Int_String go (Tokens v)))
             (fetchedValidators run) /\
    pick sharesEntry (served run) =
    flat_map (fun v => scaledEntry go cfg (OperatorAddress v)
                                   (Dec_String go (DelegatorShares v)))
             (fetchedValidators run) /\
    pick minSelfEntry (served run) =
    flat_map (fun v => scaledEntry go cfg (OperatorAddress v)
                                   (Int_String go (MinSelfDelegation v)))
             (fetchedValidators run).
Proof.
  destruct (ValidatorsHandler go cfg scenario 4) as [run|] eqn:Hrun;
    [|run_gives (@fetchedSetLength go) 1].
  exists run. split; [reflexivity|].
  exact (amounts_scaled_field_by_field go cfg scenario 4 run Hrun).
Defined.

(** A run of X7: the second of three validators has no signing info. *)
Lemma rank_is_position_plus_one_run :
  exists run,
    ValidatorsHandler go cfg unknownSigner 4 = Some run /\
    rankedOf (served run) = [("valoper5000", 1); ("valoper1000", 3)] /\
    (forall a r,
        In (a, r) (rankedOf (served run)) <->
        exists k v,
          nth_error (fetchedValidators run) k = Some v /\ OperatorAddress v = a /\
          r = Z.of_nat k + 1 /\
          signingInfoMatch unknownSigner (fetchedSigningInfos run) (joinKey go v)
          <> None) /\
    StronglySorted Z.lt (ranksOf (served run)) /\
    Forall (fun r => 1 <= r <= Z.of_nat (List.length (fetchedValidators run)))
           (ranksOf (served run)) /\
    List.length (ranksOf (served run)) =
    List.length (reached go unknownSigner (fetchedSigningInfos run)
                         (fetchedValidators run)).
Proof.
  destruct (ValidatorsHandler go cfg unknownSigner 4) as [run|] eqn:Hrun;
    [|run_gives (@fetchedSetLength go) 2].
  exists run.
  run_gives (fun r => rankedOf (@served go r)) [("valoper5000", 1); ("valoper1000", 3)].
  split; [reflexivity|]. split; [exact Hvalue|].
  exact (rank_is_position_plus_one go cfg unknownSigner 4 run Hrun).
Defined.

(** A run of X8 and of X9: four validators, one jailed, room for two. *)
Lemma active_are_the_first_eligible_run :
  exists run,
    ValidatorsHandler go cfg withJailed 4 = Some run /\
    0 < fetchedSetLength run /\
    nth_error (reached go withJailed (fetchedSigningInfos run) (fetchedValidators run)) 3
    = Some v9999 /\
    nth_error (activeFlags (served run)) 3 =
    Some (if Jailed v9999 then 0
          else if notJailed (firstn 3 (reached go withJailed (fetchedSigningInfos run)
                                               (fetchedValidators run)))
                  <? fetchedSetLength run
               then 1 else 0).
Proof.
  destruct (ValidatorsHandler go cfg withJailed 4) as [run|] eqn:Hrun;
    [|run_gives (@fetchedSetLength go) 2].
  exists run.
  run_gives (@fetchedSetLength go) 2. rename Hvalue into Hlen.
  run_gives (fun r => nth_error (reached go withJailed (@fetchedSigningInfos go r)
                                         (@fetchedValidators go r)) 3)
            (Some v9999).
  assert (Hpos : 0 < fetchedSetLength run) by (rewrite Hlen; reflexivity).
  split; [reflexivity|]. split; [exact Hpos|]. split; [exact Hvalue|].
  exact (active_are_the_first_eligible go cfg withJailed 4 run 3 v9999
                                       Hrun Hpos Hvalue).
Defined.

Lemma active_count_is_the_smaller_run :
  exists run,
    ValidatorsHandler go cfg withJailed 4 = Some run /\
    0 < fetchedSetLength run /\
    countedActive run =
    Z.min (fetchedSetLength run)
          (notJailed (reached go withJailed (fetchedSigningInfos run)
                              (fetchedValidators run))) /\
    countOnes (activeFlags (served run)) = countedActive run.
Proof.
  destruct (ValidatorsHandler go cfg withJailed 4) as [run|] eqn:Hrun;
    [|run_gives (@fetchedSetLength go) 2].
  exists run.
  run_gives (@fetchedSetLength go) 2.
  assert (Hpos : 0 < fetchedSetLength run) by (rewrite Hvalue; reflexivity).
  split; [reflexivity|]. split; [exact Hpos|].
  exact (active_count_is_the_smaller go cfg withJailed 4 run Hrun Hpos).
Defined.

(** A run of X10: the bulk request fails, three lookups follow. *)
Lemma bulk_failure_costs_one_lookup_each_run :
  exists run,
    ValidatorsHandler go cfg bulkDown 4 = Some run /\
    SigningInfos bulkDown (mkPage 0 (ConfigLimit go cfg)) = Err /\
    fetchedSigningInfos run = [] /\
    queriesOf (derivation run) =
    map (fun v => QSigningInfo (joinKey go v)) (fetchedValidators run).
Proof.
  destruct (ValidatorsHandler go cfg bulkDown 4) as [run|] eqn:Hrun;
    [|run_gives (@fetchedSetLength go) 1].
  exists run. split; [reflexivity|]. split; [reflexivity|].
  exact (bulk_failure_costs_one_lookup_each go cfg bulkDown 4 run Hrun eq_refl).
Defined.

(** A run of X11: both validators are in the bulk signing infos. *)
Lemma bulk_cover_needs_no_lookup_run :
  exists run,
    ValidatorsHandler go cfg covered 4 = Some run /\
    (forall v, In v (fetchedValidators run) ->
               exists si, In si (fetchedSigningInfos run) /\ Address si = joinKey go v) /\
    queriesOf (derivation run) = [] /\
    reached go covered (fetchedSigningInfos run) (fetchedValidators run)
    = fetchedValidators run /\
    ranksOf (served run) = countingFrom 1 (List.length (fetchedValidators run)).
Proof.
  destruct (ValidatorsHandler go cfg covered 4) as [run|] eqn:Hrun;
    [|run_gives (@fetchedSetLength go) 1].
  exists run.
  run_gives (@fetchedValidators go) [v5000; v1000]. rename Hvalue into Hvs.
  run_gives (@fetchedSigningInfos go) [infoOf v1000 3; infoOf v5000 8].
  assert (Hcover : forall v, In v (fetchedValidators run) ->
                             exists si, In si (fetchedSigningInfos run) /\
                                        Address si = joinKey go v).
  { rewrite Hvs, Hvalue. intros v [<-|[<-|[]]].
    - exists (infoOf v5000 8). split; [right; now left|reflexivity].
    - exists (infoOf v1000 3). split; [now left|reflexivity]. }
  split; [reflexivity|]. split; [exact Hcover|].
  exact (bulk_cover_needs_no_lookup go cfg covered 4 run Hrun Hcover).
Defined.

(** A run of X12. *)
Lemma pubkey_label_reads_back_run :
  1 <> 0 /\
  exists label active,
    trace (setActive go 1 v1000 [x0a; xff] (mkState 0 [])) =
    [] ++ [EvSet (IsActive (OperatorAddress v1000) label (Moniker v1000) active)] /\
    decodeUpperHex label = Some [x0a; xff] /\
    String.length label = (2 * List.length [x0a; xff])%nat.
Proof.
  assert (Hne : 1 <> 0) by discriminate.
  split; [exact Hne|].
  exact (pubkey_label_reads_back go 1 v1000 [x0a; xff] (mkState 0 []) Hne).
Defined.

(** A run of X14, X15 and X19: the plan is for height 1000 and the chain
    stands at 900. *)
Lemma upgrade_gauge_is_none_or_positive_run :
  let C := chain (Ok 900) 1000 in
  let s := mkUpgradeSample "https://example.org/v2" "v2" "1000" "600" 100 in
  In s (upgradeResponse (UpgradeHandler C (Ok (Some v2)))) /\
  (s = noUpgrade \/
   exists plan cs,
     Ok (Some v2) = Ok (Some plan) /\ NewChainStatus C = Ok cs /\
     remaining s = wrap64 (PlanHeight plan - LatestBlockHeight C cs) /\
     0 < remaining s < 2 ^ 63 /\
     info s = PlanInfo plan /\ name s = PlanName plan /\
     height s = FormatInt (PlanHeight plan) /\
     estimated_time s =
     FormatLocalRFC1123 C (fst (EstimateBlockTime C cs (remaining s)))).
Proof.
  cbv zeta.
  assert (Hin : In (mkUpgradeSample "https://example.org/v2" "v2" "1000" "600" 100)
                   (upgradeResponse
                      (UpgradeHandler (chain (Ok 900) 1000) (Ok (Some v2)))))
    by (left; reflexivity).
  split; [exact Hin|].
  exact (upgrade_gauge_is_none_or_positive (chain (Ok 900) 1000) (Ok (Some v2)) _ Hin).
Defined.

Lemma upgrade_gauge_counts_remaining_blocks_run :
  let C := chain (Ok 900) 1000 in
  (0 <= PlanHeight v2 < 2 ^ 63 /\ 0 <= LatestBlockHeight C 900 < 2 ^ 63) /\
  upgradeResponse (UpgradeHandler C (Ok (Some v2))) =
  if LatestBlockHeight C 900 <? PlanHeight v2
  then [mkUpgradeSample
          (PlanInfo v2) (PlanName v2) (FormatInt (PlanHeight v2))
          (FormatLocalRFC1123 C
             (fst (EstimateBlockTime C 900 (PlanHeight v2 - LatestBlockHeight C 900))))
          (PlanHeight v2 - LatestBlockHeight C 900)]
  else [noUpgrade].
Proof.
  cbv zeta.
  assert (Hh : 0 <= PlanHeight v2 < 2 ^ 63) by (cbn; lia).
  assert (Hl : 0 <= LatestBlockHeight (chain (Ok 900) 1000) 900 < 2 ^ 63)
    by (cbn; lia).
  split; [split; assumption|].
  exact (upgrade_gauge_counts_remaining_blocks
           (chain (Ok 900) 1000) (Ok (Some v2)) v2 900 eq_refl eq_refl Hh Hl).
Defined.

Lemma upgrade_height_label_reads_back_run :
  let C := chain (Ok 900) 1000 in
  let s := mkUpgradeSample "https://example.org/v2" "v2" "1000" "600" 100 in
  In s (upgradeResponse (UpgradeHandler C (Ok (Some v2)))) /\
  remaining s <> 0 /\
  height s = FormatInt (PlanHeight v2) /\
  readDecimal (height s) = Some (PlanHeight v2).
Proof.
  cbv zeta.
  assert (Hin : In (mkUpgradeSample "https://example.org/v2" "v2" "1000" "600" 100)
                   (upgradeResponse
                      (UpgradeHandler (chain (Ok 900) 1000) (Ok (Some v2)))))
    by (left; reflexivity).
  assert (Hne : remaining (mkUpgradeSample "https://example.org/v2" "v2" "1000"
                                           "600" 100) <> 0)
    by discriminate.
  split; [exact Hin|]. split; [exact Hne|].
  exact (upgrade_height_label_reads_back (chain (Ok 900) 1000) v2 _ Hin Hne).
Defined.

(** A run of X17 and of X18: three delegations behind a limit of two. *)
Lemma delegator_counts_the_returned_delegations_run :
  ValAddressFromBech32 go "valoper1000" = Some (list_byte_of_string "valoper1000") /\
  let run := DelegatorHandler go cfg delegated "valoper1000" in
  let request := mkPage 0 (ConfigLimit go cfg) in
  registered run = ["cosmos_validator_delegator_total"] /\
  queriesOf (delegatorTrace run) =
  [QValidatorDelegations
     (ValAddress_String go (list_byte_of_string "valoper1000")) request] /\
  exists samples,
    response run = Some samples /\
    samplesOf (delegatorTrace run) = samples /\
    (samples = [] <->
     ValidatorDelegations delegated
       (ValAddress_String go (list_byte_of_string "valoper1000")) request = Err) /\
    (forall DelegationResponses,
        ValidatorDelegations delegated
          (ValAddress_String go (list_byte_of_string "valoper1000")) request
        = Ok DelegationResponses ->
        samples = [DelegatorTotal "valoper1000"
                                  (Z.of_nat (List.length DelegationResponses))]).
Proof.
  split; [reflexivity|].
  exact (delegator_counts_the_returned_delegations
           go cfg delegated "valoper1000" (list_byte_of_string "valoper1000") eq_refl).
Defined.

Lemma delegator_total_capped_by_limit_run :
  (ValAddressFromBech32 go "valoper1000" = Some (list_byte_of_string "valoper1000") /\
   0 <= ConfigLimit go cfg /\
   List.length threeDelegations = 3%nat) /\
  response (DelegatorHandler go cfg delegated "valoper1000") =
  Some [DelegatorTotal "valoper1000"
                       (Z.min (ConfigLimit go cfg)
                              (Z.of_nat (List.length threeDelegations)))].
Proof.
  assert (Hl : 0 <= ConfigLimit go cfg) by (cbn; lia).
  split; [split; [reflexivity|split; [exact Hl|reflexivity]]|].
  exact (delegator_total_capped_by_limit
           go cfg delegated "valoper1000" (list_byte_of_string "valoper1000")
           threeDelegations eq_refl Hl eq_refl).
Defined.
